(** * Webhook verification and event correlation of the Chainrails demo services

    A shallow embedding of the two NestJS orchestration services

      - [src/api/src/app/app.service.ts]                    (module [Api])
      - [src/server/nestjs-example/src/app/app.service.ts]  (module [Server])

    and of the webhook endpoint of their controller
    ([AppController.handleWebhook]).  The services keep a process-wide
    [Map] from intent addresses to the webhook events received for them,
    check the HMAC-SHA256 signature and the age of every delivery, and
    append accepted deliveries to the log of their intent address.

    The development also covers what surrounds the receiver: the other
    methods of the two services ([getTransferOptions],
    [getTransferStatus]), the interactive demo that drives them
    ([ChainrailsCLI]), the express server of the SDK demo
    ([src/sdk/demo.ts], module [Sdk]), the query built for the list of
    intents, and [formatUnits] ([src/api/src/utils/formatUnits.ts]).

    Conventions.
      - A JS string is the [string] of its UTF-8 bytes; this is what
        [hmac.update] and [Buffer.from] see.
      - A JS number that holds an integer is a [Z]; [NaN] is kept apart
        ([jsnum]).  Fractional numbers are outside the model.
      - [undefined] is [None] of an [option].
      - The clock is an input: [Date_now] is what [Date.now()] returns
        and [Date_toISOString] what [new Date().toISOString()] returns.
      - The logger is modelled by the list of entries a call writes.
      - A method call is a function from the store before the call to a
        [run]: the value returned or the exception thrown, the store
        after the call, and the log entries written. *)

From Stdlib Require Import ZArith Ascii String List Lia.
From stdpp Require Import base decidable countable gmap strings pretty.
Import ListNotations.
Local Open Scope string_scope.
Local Open Scope list_scope.
Local Open Scope Z_scope.

(* ===================================================================== *)
(** * Bytes and strings *)
(* ===================================================================== *)

(** [Buffer.from(s)]: the bytes of a string, each one a [Z] in [0, 256). *)
Definition bytes_of_string (s : string) : list Z :=
  map (fun c => Z.of_N (N_of_ascii c)) (list_ascii_of_string s).

Definition hex_digit (d : Z) : ascii :=
  if d <? 10 then ascii_of_N (Z.to_N (48 + d)) else ascii_of_N (Z.to_N (87 + d)).

(** Two lowercase hexadecimal digits per byte, as [digest('hex')] prints. *)
Fixpoint hex_of_bytes (bs : list Z) : string :=
  match bs with
  | [] => EmptyString
  | b :: rest =>
      String (hex_digit (Z.shiftr b 4)) (String (hex_digit (Z.land b 15)) (hex_of_bytes rest))
  end.

(* ===================================================================== *)
(** * SHA-256 and HMAC ([createHmac('sha256', key)] of Node's [crypto]) *)
(* ===================================================================== *)

Module Sha256.

Definition mask32 : Z := 4294967295.

Definition wrap (x : Z) : Z := Z.land x mask32.
Definition add32 (x y : Z) : Z := wrap (x + y).
Definition not32 (x : Z) : Z := Z.lxor x mask32.
Definition rotr (n x : Z) : Z := wrap (Z.lor (Z.shiftr x n) (Z.shiftl x (32 - n))).

Definition ch (x y z : Z) : Z := Z.lxor (Z.land x y) (Z.land (not32 x) z).
Definition maj (x y z : Z) : Z :=
  Z.lxor (Z.lxor (Z.land x y) (Z.land x z)) (Z.land y z).
Definition big_sigma0 (x : Z) : Z := Z.lxor (Z.lxor (rotr 2 x) (rotr 13 x)) (rotr 22 x).
Definition big_sigma1 (x : Z) : Z := Z.lxor (Z.lxor (rotr 6 x) (rotr 11 x)) (rotr 25 x).
Definition small_sigma0 (x : Z) : Z := Z.lxor (Z.lxor (rotr 7 x) (rotr 18 x)) (Z.shiftr x 3).
Definition small_sigma1 (x : Z) : Z := Z.lxor (Z.lxor (rotr 17 x) (rotr 19 x)) (Z.shiftr x 10).

(** The constants are the leading 32 fractional bits of the square roots
    (initial hash value) and cube roots (round constants) of the first
    primes; they are computed here rather than typed in. *)
Fixpoint cbrt_search (fuel : nat) (lo hi n : Z) : Z :=
  match fuel with
  | O => lo
  | S fuel' =>
      if hi - lo <=? 1 then lo
      else
        let mid := (lo + hi) / 2 in
        if mid * mid * mid <=? n then cbrt_search fuel' mid hi n
        else cbrt_search fuel' lo mid n
  end.

Definition cbrt (n : Z) : Z := cbrt_search 200 0 (n + 1) n.

Definition first_primes : list Z :=
  [2; 3; 5; 7; 11; 13; 17; 19; 23; 29; 31; 37; 41; 43; 47; 53;
   59; 61; 67; 71; 73; 79; 83; 89; 97; 101; 103; 107; 109; 113; 127; 131;
   137; 139; 149; 151; 157; 163; 167; 173; 179; 181; 191; 193; 197; 199; 211; 223;
   227; 229; 233; 239; 241; 251; 257; 263; 269; 271; 277; 281; 283; 293; 307; 311].

Definition round_constants : list Z :=
  Eval vm_compute in map (fun p => wrap (cbrt (p * 2 ^ 96))) first_primes.

Definition initial_hash : list Z :=
  Eval vm_compute in map (fun p => wrap (Z.sqrt (p * 2 ^ 64))) (firstn 8 first_primes).

(** Padding: a 1 bit, zeros up to 56 mod 64 bytes, the bit length on 8 bytes. *)
Definition be_bytes (count : nat) (x : Z) : list Z :=
  map (fun i => Z.land (Z.shiftr x (8 * Z.of_nat i)) 255) (rev (seq 0 count)).

Definition pad (msg : list Z) : list Z :=
  let len := Z.of_nat (length msg) in
  let zeros := Z.to_nat ((55 - len) mod 64) in
  msg ++ [128] ++ repeat 0 zeros ++ be_bytes 8 (8 * len).

Fixpoint words_of_bytes (bs : list Z) : list Z :=
  match bs with
  | b0 :: b1 :: b2 :: b3 :: rest =>
      (Z.shiftl b0 24 + Z.shiftl b1 16 + Z.shiftl b2 8 + b3) :: words_of_bytes rest
  | _ => []
  end.

Fixpoint blocks_of_words (fuel : nat) (ws : list Z) : list (list Z) :=
  match fuel, ws with
  | S fuel', _ :: _ => firstn 16 ws :: blocks_of_words fuel' (skipn 16 ws)
  | _, _ => []
  end.

(** Message schedule: sixteen words of the block, then forty-eight derived ones. *)
Fixpoint extend_schedule (count : nat) (w : list Z) : list Z :=
  match count with
  | O => w
  | S count' =>
      let t := length w in
      let at_back k := nth (t - k) w 0 in
      let next := add32 (add32 (small_sigma1 (at_back 2%nat)) (at_back 7%nat))
                        (add32 (small_sigma0 (at_back 15%nat)) (at_back 16%nat)) in
      extend_schedule count' (w ++ [next])
  end.

Definition schedule (block : list Z) : list Z := extend_schedule 48 block.

Record regs := Regs { ra : Z; rb : Z; rc : Z; rd : Z; re : Z; rf : Z; rg : Z; rh : Z }.

Definition round (r : regs) (kw : Z * Z) : regs :=
  let t1 := add32 (add32 (add32 (rh r) (big_sigma1 (re r))) (ch (re r) (rf r) (rg r)))
                  (add32 (fst kw) (snd kw)) in
  let t2 := add32 (big_sigma0 (ra r)) (maj (ra r) (rb r) (rc r)) in
  Regs (add32 t1 t2) (ra r) (rb r) (rc r) (add32 (rd r) t1) (re r) (rf r) (rg r).

Definition regs_of_list (h : list Z) : regs :=
  Regs (nth 0 h 0) (nth 1 h 0) (nth 2 h 0) (nth 3 h 0)
       (nth 4 h 0) (nth 5 h 0) (nth 6 h 0) (nth 7 h 0).

Definition list_of_regs (r : regs) : list Z :=
  [ra r; rb r; rc r; rd r; re r; rf r; rg r; rh r].

Definition compress (h : list Z) (block : list Z) : list Z :=
  let r := fold_left round (combine round_constants (schedule block)) (regs_of_list h) in
  map (fun xy => add32 (fst xy) (snd xy)) (combine h (list_of_regs r)).

Definition digest (msg : list Z) : list Z :=
  let ws := words_of_bytes (pad msg) in
  let h := fold_left compress (blocks_of_words (length ws) ws) initial_hash in
  concat (map (be_bytes 4) h).

(** HMAC (RFC 2104) with block size 64; a key longer than a block is hashed. *)
Definition block_key (key : list Z) : list Z :=
  let k := if (64 <? length key)%nat then digest key else key in
  k ++ repeat 0 (64 - length k)%nat.

Definition hmac (key msg : list Z) : list Z :=
  let k := block_key key in
  let inner := digest (map (Z.lxor 54) k ++ msg) in
  digest (map (Z.lxor 92) k ++ inner).

End Sha256.

(** [createHmac('sha256', secret).update(message).digest('hex')] *)
Definition hmac_sha256_hex (secret message : string) : string :=
  hex_of_bytes (Sha256.hmac (bytes_of_string secret) (bytes_of_string message)).

(* ===================================================================== *)
(** * JavaScript values *)
(* ===================================================================== *)

#[local] Set Warnings "-register-all".

(** A parsed JSON value.  Arrays and objects carry the identity [ref] of
    the heap object that holds them: a [Map] compares such keys by
    identity, not by content.  The properties of an object are listed in
    enumeration order, each name once. *)
Inductive json : Type :=
| JNull
| JBool (b : bool)
| JNum (n : Z)
| JStr (s : string)
| JArr (ref : nat) (items : list json)
| JObj (ref : nat) (props : list (string * json)).

#[global] Instance json_eq_null_dec (v : json) : Decision (v = JNull).
Proof. destruct v; (left; reflexivity) || (right; discriminate). Defined.

(** A JS number as the services see it: [parseInt] gives an integer or
    [NaN].  The integer is kept exact; JS rounds beyond 2^53, which is
    far outside the 300 seconds around the clock that matter here. *)
Inductive jsnum : Type :=
| NaN
| JInt (n : Z).

(** [a - b], [Math.abs(x)] and [x > y]; every comparison with [NaN] is false. *)
Definition js_sub (a b : jsnum) : jsnum :=
  match a, b with
  | JInt x, JInt y => JInt (x - y)
  | _, _ => NaN
  end.

Definition Math_abs (x : jsnum) : jsnum :=
  match x with
  | JInt n => JInt (Z.abs n)
  | NaN => NaN
  end.

Definition js_gt (x y : jsnum) : bool :=
  match x, y with
  | JInt a, JInt b => b <? a
  | _, _ => false
  end.

(** [`${x}`] for a number: decimal digits for an integer (JS switches to
    exponent notation from 10^21 on; the services print the timestamp
    into the signed message only when it is within 300 of the clock). *)
Definition number_to_string (x : jsnum) : string :=
  match x with
  | NaN => "NaN"
  | JInt n => pretty n
  end.

(** Integers up to [Number.MAX_SAFE_INTEGER] in absolute value are JS
    numbers that [parseInt] reads and [toString] prints digit for digit. *)
Definition MAX_SAFE_INTEGER : Z := 9007199254740991.

Definition prints_exactly (x : jsnum) : bool :=
  match x with
  | NaN => true
  | JInt n => Z.abs n <=? MAX_SAFE_INTEGER
  end.

(** ** Property access, truthiness *)

Fixpoint assoc (name : string) (props : list (string * json)) : option json :=
  match props with
  | [] => None
  | (k, v) :: rest => if String.eqb k name then Some v else assoc name rest
  end.

(** [v.name] for a value that is neither [null] nor [undefined].  The
    names the services read ([data], [intent_address], [id], [type],
    [created_at]) are own properties of plain objects only: arrays,
    strings, numbers and booleans answer [undefined]. *)
Definition member (v : json) (name : string) : option json :=
  match v with
  | JObj _ props => assoc name props
  | _ => None
  end.

(** [v?.name]: [undefined] when [v] is [null] or [undefined]. *)
Definition opt_member (v : option json) (name : string) : option json :=
  match v with
  | None | Some JNull => None
  | Some w => member w name
  end.

(** [if (v)] *)
Definition truthy (v : option json) : bool :=
  match v with
  | None | Some JNull => false
  | Some (JBool b) => b
  | Some (JNum n) => negb (n =? 0)
  | Some (JStr s) => negb (String.eqb s "")
  | Some (JArr _ _) | Some (JObj _ _) => true
  end.

(** ** [JSON.stringify] *)

Definition dquote : string := String (ascii_of_N 34) EmptyString.

Definition hex4 (n : Z) : string :=
  String (hex_digit (Z.land (Z.shiftr n 12) 15))
    (String (hex_digit (Z.land (Z.shiftr n 8) 15))
       (String (hex_digit (Z.land (Z.shiftr n 4) 15))
          (String (hex_digit (Z.land n 15)) EmptyString))).

Definition escape_char (c : ascii) : string :=
  let n := Z.of_N (N_of_ascii c) in
  if n =? 8 then "\b"
  else if n =? 9 then "\t"
  else if n =? 10 then "\n"
  else if n =? 12 then "\f"
  else if n =? 13 then "\r"
  else if n =? 34 then "\" +:+ dquote
  else if n =? 92 then "\\"
  else if n <? 32 then "\u" +:+ hex4 n
  else String c EmptyString.

Fixpoint escape (s : string) : string :=
  match s with
  | EmptyString => EmptyString
  | String c rest => escape_char c +:+ escape rest
  end.

Definition quote (s : string) : string := dquote +:+ escape s +:+ dquote.

Fixpoint join (sep : string) (parts : list string) : string :=
  match parts with
  | [] => EmptyString
  | [p] => p
  | p :: rest => p +:+ sep +:+ join sep rest
  end.

Fixpoint JSON_stringify (v : json) : string :=
  match v with
  | JNull => "null"
  | JBool true => "true"
  | JBool false => "false"
  | JNum n => pretty n
  | JStr s => quote s
  | JArr _ items => "[" +:+ join "," (map JSON_stringify items) +:+ "]"
  | JObj _ props =>
      "{" +:+ join "," (map (fun kv => quote (fst kv) +:+ ":" +:+ JSON_stringify (snd kv)) props) +:+ "}"
  end.

(** Every number of a JSON value is an integer up to
    [Number.MAX_SAFE_INTEGER] in absolute value.  For such a value
    [JSON.stringify] prints each number digit for digit, as
    [JSON_stringify] does; beyond, JS prints the digits of the nearest
    double, in exponent notation from 10^21 on, and [JSON_stringify] is
    not the text the services sign. *)
Fixpoint exact_numbers (v : json) : bool :=
  match v with
  | JNum n => Z.abs n <=? MAX_SAFE_INTEGER
  | JArr _ items => forallb exact_numbers items
  | JObj _ props => forallb (fun kv => exact_numbers (snd kv)) props
  | JNull | JBool _ | JStr _ => true
  end.

(** ** [parseInt(s, 10)] *)

Definition is_prefix_at (prefix bs : list Z) : bool :=
  bool_decide (firstn (length prefix) bs = prefix).

(** Length in bytes of the white space or line terminator that starts
    [bs], or 0: TAB, LF, VT, FF, CR, SP, and in UTF-8 U+00A0, U+1680,
    U+2000..U+200A, U+2028, U+2029, U+202F, U+205F, U+3000, U+FEFF. *)
Definition white_space_width (bs : list Z) : nat :=
  match bs with
  | [] => 0%nat
  | b :: _ =>
      if ((9 <=? b) && (b <=? 13)) || (b =? 32) then 1%nat
      else if is_prefix_at [194; 160] bs then 2%nat
      else if is_prefix_at [225; 154; 128] bs then 3%nat
      else if is_prefix_at [226; 128] bs
              && (let c := nth 2 bs 0 in
                  ((128 <=? c) && (c <=? 138)) || (c =? 168) || (c =? 169) || (c =? 175))
           then 3%nat
      else if is_prefix_at [226; 129; 159] bs then 3%nat
      else if is_prefix_at [227; 128; 128] bs then 3%nat
      else if is_prefix_at [239; 187; 191] bs then 3%nat
      else 0%nat
  end.

Fixpoint trim_start (fuel : nat) (bs : list Z) : list Z :=
  match fuel with
  | O => bs
  | S fuel' =>
      match white_space_width bs with
      | O => bs
      | w => trim_start fuel' (skipn w bs)
      end
  end.

Definition is_digit (b : Z) : bool := (48 <=? b) && (b <=? 57).

(** The value of the longest prefix of decimal digits, if there is one. *)
Fixpoint leading_digits (bs : list Z) (acc : option Z) : option Z :=
  match bs with
  | b :: rest =>
      if is_digit b
      then leading_digits rest (Some (10 * default 0 acc + (b - 48)))
      else acc
  | [] => acc
  end.

Definition parseInt10 (s : string) : jsnum :=
  let bs := bytes_of_string s in
  let bs := trim_start (length bs) bs in
  let '(sign, bs) :=
    match bs with
    | 45 :: rest => (-1, rest)
    | 43 :: rest => (1, rest)
    | _ => (1, bs)
    end in
  match leading_digits bs None with
  | None => NaN
  | Some n => JInt (sign * n)
  end.

(** [parseInt(header, 10)] for a header that may be missing: [undefined]
    is first turned into the string "undefined".  The integer is the
    exact value of the digits; it is the number JS gets when it is at
    most [MAX_SAFE_INTEGER] in absolute value ([prints_exactly]). *)
Definition parseInt (header : option string) : jsnum :=
  parseInt10 (default "undefined" header).

(* ===================================================================== *)
(** * The event store *)
(* ===================================================================== *)

(** Keys of [webhookEvents].  The map is declared [Map<string, any[]>],
    but the keys come from parsed JSON, so any value can arrive; a [Map]
    tells primitives apart by value and objects by identity. *)
Inductive mapkey : Type :=
| KUndefined
| KNull
| KBool (b : bool)
| KNum (n : Z)
| KStr (s : string)
| KRef (ref : nat).

#[global] Instance mapkey_eq_dec : EqDecision mapkey.
Proof. solve_decision. Defined.

Definition mapkey_code (k : mapkey) : bool + (bool + (Z + (string + nat))) :=
  match k with
  | KUndefined => inl false
  | KNull => inl true
  | KBool b => inr (inl b)
  | KNum n => inr (inr (inl n))
  | KStr s => inr (inr (inr (inl s)))
  | KRef r => inr (inr (inr (inr r)))
  end.

Definition mapkey_decode (c : bool + (bool + (Z + (string + nat)))) : mapkey :=
  match c with
  | inl false => KUndefined
  | inl true => KNull
  | inr (inl b) => KBool b
  | inr (inr (inl n)) => KNum n
  | inr (inr (inr (inl s))) => KStr s
  | inr (inr (inr (inr r))) => KRef r
  end.

#[global] Instance mapkey_countable : Countable mapkey.
Proof. apply (inj_countable' mapkey_code mapkey_decode). intros []; reflexivity. Defined.

Definition key_of (v : option json) : mapkey :=
  match v with
  | None => KUndefined
  | Some JNull => KNull
  | Some (JBool b) => KBool b
  | Some (JNum n) => KNum n
  | Some (JStr s) => KStr s
  | Some (JArr r _) | Some (JObj r _) => KRef r
  end.

(** What [handleWebhookEvent] pushes on a log. *)
Record event : Type := Event {
  ev_id : option json;
  ev_type : option json;
  ev_created_at : option json;
  ev_data : option json;
  ev_receivedAt : string
}.

Abbreviation store := (gmap mapkey (list event)).

(** [this.webhookEvents.get(key) || []] *)
Definition get_events (st : store) (key : mapkey) : list event :=
  default [] (st !! key).

(* ===================================================================== *)
(** * Environment, log and results *)
(* ===================================================================== *)

Record env : Type := Env {
  CHAINRAILS_WEBHOOK_SECRET : option string;   (* configService.get(...) *)
  Date_now : Z;                                (* Date.now(), milliseconds *)
  Date_toISOString : string                    (* new Date().toISOString() *)
}.

Inductive js_error : Type :=
| ERR_INVALID_ARG_TYPE                  (* Buffer.from(undefined) *)
| ERR_CRYPTO_TIMING_SAFE_EQUAL_LENGTH.  (* timingSafeEqual on unequal lengths *)

Inductive log_entry : Type :=
| LogWarn (msg : string)
| LogError (msg : string) (err : js_error).

Inductive exn : Type :=
| UnauthorizedException (msg : string)
| TypeError
| Rejected (reason : string).

Inductive outcome (A : Type) : Type :=
| Returned (a : A)
| Thrown (e : exn).
Arguments Returned {A} a.
Arguments Thrown {A} e.

(** A call of a service method: what it gives back, the store it leaves
    and what it wrote to the logger. *)
Record run (A : Type) : Type := Run {
  result : outcome A;
  webhookEvents : store;
  logged : list log_entry
}.
Arguments Run {A} result webhookEvents logged.
Arguments result {A} r.
Arguments webhookEvents {A} r.
Arguments logged {A} r.

Record webhook_result : Type := WebhookResult {
  received : bool;
  eventId : option json;
  eventType : option json;
  intentAddress : option json
}.

(** What the controller answers. *)
Record webhook_ack : Type := WebhookAck {
  ack_received : bool;
  ack_eventId : option json;
  ack_eventType : option json
}.

Record transfer_result : Type := TransferResult {
  tr_intent : json;
  funding_address : option json;
  funding_amount : option json;
  funding_network : string;
  funding_deadline : option json;
  tracking_intentId : option json;
  tracking_intentAddress : option json
}.

(** [!webhookSecret]: the secret is [undefined] or the empty string. *)
Definition secret_of (e : env) : option string :=
  match CHAINRAILS_WEBHOOK_SECRET e with
  | Some s => if String.eqb s "" then None else Some s
  | None => None
  end.

(** [Math.floor(Date.now() / 1000)] *)
Definition now_seconds (e : env) : Z := Date_now e / 1000.

(** [computed === signature], the header possibly missing. *)
Definition strict_equal (computed : string) (signature : option string) : bool :=
  match signature with
  | Some s => String.eqb computed s
  | None => false
  end.

(** [Buffer.from(s)] throws when [s] is [undefined]. *)
Definition Buffer_from (s : option string) : js_error + list Z :=
  match s with
  | Some str => inr (bytes_of_string str)
  | None => inl ERR_INVALID_ARG_TYPE
  end.

(** [crypto.timingSafeEqual]: throws on unequal lengths, otherwise folds
    the differences of all byte pairs together and tests the total. *)
Definition timingSafeEqual (a b : list Z) : js_error + bool :=
  if negb (length a =? length b)%nat then inl ERR_CRYPTO_TIMING_SAFE_EQUAL_LENGTH
  else inr (fold_left (fun acc xy => Z.lor acc (Z.lxor (fst xy) (snd xy))) (combine a b) 0 =? 0).

(* ===================================================================== *)
(** * The services *)
(* ===================================================================== *)

(** The object [handleWebhookEvent] pushes for a payload:
    [{ id: payload.id, type: payload.type, created_at: payload.created_at,
       data: payload.data, receivedAt: new Date().toISOString() }]. *)
Definition event_of (e : env) (payload : json) : event :=
  {| ev_id := member payload "id";
     ev_type := member payload "type";
     ev_created_at := member payload "created_at";
     ev_data := member payload "data";
     ev_receivedAt := Date_toISOString e |}.

(** [payload.data?.intent_address] *)
Definition intent_address_of (payload : json) : option json :=
  opt_member (member payload "data") "intent_address".

(** ** [handleWebhookEvent] and [createTransfer]

    The two services have the same text for both methods; they differ in
    [verifyWebhookSignature], which [handleWebhookEvent] calls first. *)
Section Handler.

Variable verifyWebhookSignature : env -> json -> option string -> jsnum -> bool * list log_entry.

Definition handleWebhookEvent_with
    (e : env) (st : store) (payload : json) (signature : option string) (timestamp : jsnum)
    : run webhook_result :=
  let '(isValid, logs) := verifyWebhookSignature e payload signature timestamp in
  if negb isValid then
    Run (Thrown (UnauthorizedException "Invalid webhook signature")) st logs
  else
    match payload with
    | JNull => Run (Thrown TypeError) st logs        (* payload.data of null *)
    | _ =>
        let intentAddress := intent_address_of payload in
        let st' :=
          if truthy intentAddress then
            let events := get_events st (key_of intentAddress) in
            let events := events ++ [event_of e payload] in
            <[key_of intentAddress := events]> st
          else st in
        Run (Returned {| received := true;
                         eventId := member payload "id";
                         eventType := member payload "type";
                         intentAddress := intentAddress |})
            st' logs
    end.

(** [AppController.handleWebhook]: parses the timestamp header and
    passes the delivery on; an exception of the service goes through. *)
Definition handleWebhook_with
    (e : env) (st : store) (payload : json)
    (signature : option string) (timestamp : option string)
    : run webhook_ack :=
  let timestampNumber := parseInt timestamp in
  let r := handleWebhookEvent_with e st payload signature timestampNumber in
  match result r with
  | Returned res =>
      Run (Returned {| ack_received := true;
                       ack_eventId := eventId res;
                       ack_eventType := eventType res |})
          (webhookEvents r) (logged r)
  | Thrown ex => Run (Thrown ex) (webhookEvents r) (logged r)
  end.

End Handler.

(** [createTransfer].  [created] is what
    [await this.intentsService.createIntent(...)] gives: the parsed
    response of the API, or the exception it throws. *)
Definition createTransfer (st : store) (sourceChain : string) (created : outcome json)
    : run transfer_result :=
  match created with
  | Thrown ex => Run (Thrown ex) st []
  | Returned JNull => Run (Thrown TypeError) st []       (* intent.intent_address of null *)
  | Returned intent =>
      Run (Returned {| tr_intent := intent;
                       funding_address := member intent "intent_address";
                       funding_amount := member intent "totalAmount";
                       funding_network := sourceChain;
                       funding_deadline := member intent "expires_at";
                       tracking_intentId := member intent "id";
                       tracking_intentAddress := member intent "intent_address" |})
          (<[key_of (member intent "intent_address") := []]> st) []
  end.

(** [getTransferStatus] reads [this.webhookEvents.get(intent.intent_address) || []]. *)
Definition getEvents (st : store) (address : string) : list event :=
  get_events st (KStr address).

(** ** [src/api/src/app/app.service.ts] *)
Module Api.

Definition verifyWebhookSignature
    (e : env) (payload : json) (signature : option string) (timestamp : jsnum)
    : bool * list log_entry :=
  match secret_of e with
  | None =>
      (true, [LogWarn "CHAINRAILS_WEBHOOK_SECRET not set. Skipping verification (OK for development, but not recommended)."])
  | Some webhookSecret =>
      let now := now_seconds e in
      if js_gt (Math_abs (js_sub (JInt now) timestamp)) (JInt 300) then (false, [])
      else
        let body := JSON_stringify payload in
        let message := number_to_string timestamp +:+ "." +:+ body in
        let computed := "sha256=" +:+ hmac_sha256_hex webhookSecret message in
        (strict_equal computed signature, [])
  end.

Definition handleWebhookEvent := handleWebhookEvent_with verifyWebhookSignature.
Definition handleWebhook := handleWebhook_with verifyWebhookSignature.

End Api.

(** ** [src/server/nestjs-example/src/app/app.service.ts] *)
Module Server.

Definition MAX_TIMESTAMP_AGE : Z := 300.

Definition verifyWebhookSignature
    (e : env) (payload : json) (receivedSignature : option string) (timestamp : jsnum)
    : bool * list log_entry :=
  match secret_of e with
  | None =>
      (true, [LogWarn ("CHAINRAILS_WEBHOOK_SECRET not set. Skipping signature verification. "
                       +:+ "This is OK for development but REQUIRED for production!")])
  | Some webhookSecret =>
      let now := now_seconds e in
      let timeDifference := Math_abs (js_sub (JInt now) timestamp) in
      if js_gt timeDifference (JInt MAX_TIMESTAMP_AGE) then
        (false, [LogWarn ("Webhook timestamp too old. Difference: "
                          +:+ number_to_string timeDifference +:+ "s (max: "
                          +:+ number_to_string (JInt MAX_TIMESTAMP_AGE) +:+ "s)")])
      else
        let payloadString := JSON_stringify payload in
        let signedPayload := number_to_string timestamp +:+ "." +:+ payloadString in
        let computedSignature := "sha256=" +:+ hmac_sha256_hex webhookSecret signedPayload in
        match Buffer_from receivedSignature with
        | inl err => (false, [LogError "Error comparing webhook signatures:" err])
        | inr receivedBuffer =>
            let computedBuffer := bytes_of_string computedSignature in
            if negb (length receivedBuffer =? length computedBuffer)%nat then (false, [])
            else
              match timingSafeEqual receivedBuffer computedBuffer with
              | inr same => (same, [])
              | inl err => (false, [LogError "Error comparing webhook signatures:" err])
              end
        end
  end.

Definition handleWebhookEvent := handleWebhookEvent_with verifyWebhookSignature.
Definition handleWebhook := handleWebhook_with verifyWebhookSignature.

End Server.

(* ===================================================================== *)
(** * Either service *)
(* ===================================================================== *)

Inductive service : Type := ApiService | ServerService.

Definition verifyWebhookSignature (svc : service) :=
  match svc with
  | ApiService => Api.verifyWebhookSignature
  | ServerService => Server.verifyWebhookSignature
  end.

Definition handleWebhookEvent (svc : service) :=
  match svc with
  | ApiService => Api.handleWebhookEvent
  | ServerService => Server.handleWebhookEvent
  end.

Definition handleWebhook (svc : service) :=
  match svc with
  | ApiService => Api.handleWebhook
  | ServerService => Server.handleWebhook
  end.

(** The signature both verifiers compute for a delivery:
    "sha256=" and the HMAC of [`${timestamp}.${JSON.stringify(payload)}`]. *)
Definition expected_signature (secret : string) (timestamp : jsnum) (payload : json) : string :=
  "sha256=" +:+ hmac_sha256_hex secret
                  (number_to_string timestamp +:+ "." +:+ JSON_stringify payload).

(** [Math.abs(now - timestamp) > 300] *)
Definition stale (e : env) (timestamp : jsnum) : bool :=
  js_gt (Math_abs (js_sub (JInt (now_seconds e)) timestamp)) (JInt 300).

(* ===================================================================== *)
(** * A sample delivery *)
(* ===================================================================== *)

Module Sample.

Definition environment : env :=
  {| CHAINRAILS_WEBHOOK_SECRET := Some "whsec_test";
     Date_now := 1700000000123;
     Date_toISOString := "2023-11-14T22:13:20.123Z" |}.

Definition unprotected : env :=
  {| CHAINRAILS_WEBHOOK_SECRET := None;
     Date_now := 1700000000123;
     Date_toISOString := "2023-11-14T22:13:20.123Z" |}.

(** [{"id":"evt_1","type":"intent.funded","created_at":"2023-11-14T22:13:19Z",
      "data":{"intent_address":"0xabc","status":"FUNDED"}}] *)
Definition payload : json :=
  JObj 0 [("id", JStr "evt_1");
          ("type", JStr "intent.funded");
          ("created_at", JStr "2023-11-14T22:13:19Z");
          ("data", JObj 1 [("intent_address", JStr "0xabc"); ("status", JStr "FUNDED")])].

(** [{"id":"evt_2","type":"intent.completed","created_at":"2023-11-14T22:15:00Z",
      "data":{"status":"COMPLETED"}}] *)
Definition stray : json :=
  JObj 2 [("id", JStr "evt_2");
          ("type", JStr "intent.completed");
          ("created_at", JStr "2023-11-14T22:15:00Z");
          ("data", JObj 3 [("status", JStr "COMPLETED")])].

(** The response of [POST /intents] for the intent the payload is about. *)
Definition intent : json :=
  JObj 4 [("id", JNum 42);
          ("intent_address", JStr "0xabc");
          ("intent_status", JStr "PENDING");
          ("totalAmount", JStr "10000000");
          ("expires_at", JStr "2023-11-14T23:13:20Z")].

(** Signatures under the secret [whsec_test], for the payload stamped
    [1700000000], [1699999699] (301 s old), [1699999700] (300 s old),
    [1699999701] (299 s old) and [NaN], and for the stray payload
    stamped [1700000000]. *)
Definition signature_now : string :=
  "sha256=348adc149fa93a9ef9f78fdb3078f1a5232edc8812e04d0efa72a952056d0892".
Definition signature_301 : string :=
  "sha256=45d8d83fa39039b852938c1825dcfe4fd29917cbaa6aba00fbb032f69f6ec47c".
Definition signature_300 : string :=
  "sha256=86dd1c56f6c7435eb62615f26edd05289eb9e6300da793f7cfcd0ace30b8c8b1".
Definition signature_299 : string :=
  "sha256=c79369b9a88fdae4a801dd3f8c0e24e8480803954f91291264cf248849f63d33".
Definition signature_nan : string :=
  "sha256=d37e2fe319ae4d835e7404d8e8ac0e1f739801cc7b0906776084eab166a2d3a1".
Definition signature_stray : string :=
  "sha256=9c894f938c7b00ead2365d67eef716c87cad9e27e34456f38bc8194085fa1493".

End Sample.

(* ===================================================================== *)
(** * Successive deliveries *)
(* ===================================================================== *)

(** [x === 'literal'] for a value read from JSON. *)
Definition is_string (v : option json) (literal : string) : bool :=
  match v with
  | Some (JStr s) => String.eqb s literal
  | _ => false
  end.

(** One webhook request as [handleWebhookEvent] receives it, with the
    environment at the time of the call. *)
Record delivery : Type := Delivery {
  d_env : env;
  d_payload : json;
  d_signature : option string;
  d_timestamp : jsnum
}.

(** The store after the service handled one request, and after it
    handled a list of them one after the other. *)
Definition deliver (svc : service) (st : store) (d : delivery) : store :=
  webhookEvents (handleWebhookEvent svc (d_env d) st (d_payload d) (d_signature d) (d_timestamp d)).

Definition deliver_all (svc : service) (st : store) (ds : list delivery) : store :=
  fold_left (deliver svc) ds st.

(** The requests of a list that the service records under [addr]: those
    it accepts and whose payload carries [addr] as intent address. *)
Definition recorded_under (svc : service) (addr : string) (d : delivery) : bool :=
  fst (verifyWebhookSignature svc (d_env d) (d_payload d) (d_signature d) (d_timestamp d))
  && is_string (intent_address_of (d_payload d)) addr.

(* ===================================================================== *)
(** * [getTransferStatus] *)
(* ===================================================================== *)

(** [String(v)], as the lookup [stages[intent.intent_status]] converts
    its key.  An array is the join of its elements, [null] counting as
    the empty string; a plain object is "[object Object]", unless it has
    an own property [toString], which is not callable and makes the
    conversion throw a TypeError ([None]). *)
Fixpoint to_js_string (v : json) : option string :=
  match v with
  | JNull => Some "null"
  | JBool true => Some "true"
  | JBool false => Some "false"
  | JNum n => Some (pretty n)
  | JStr s => Some s
  | JArr _ items =>
      (fix elements (l : list json) : option (list string) :=
         match l with
         | [] => Some []
         | x :: rest =>
             match (match x with JNull => Some "" | _ => to_js_string x end), elements rest with
             | Some s, Some ss => Some (s :: ss)
             | _, _ => None
             end
         end) items
      ≫= fun parts => Some (join "," parts)
  | JObj _ props =>
      match assoc "toString" props with
      | Some _ => None
      | None => Some "[object Object]"
      end
  end.

(** The key of a property access [obj[v]]: [undefined] reads as "undefined". *)
Definition to_property_key (v : option json) : option string :=
  match v with
  | None => Some "undefined"
  | Some w => to_js_string w
  end.

(** The names every object inherits from [Object.prototype]. *)
Definition object_prototype_names : list string :=
  ["constructor"; "hasOwnProperty"; "isPrototypeOf"; "propertyIsEnumerable";
   "toLocaleString"; "toString"; "valueOf"; "__proto__";
   "__defineGetter__"; "__defineSetter__"; "__lookupGetter__"; "__lookupSetter__"].

(** The object literal [stages]. *)
Definition stages : list (string * string) :=
  [("PENDING", "Waiting for funding");
   ("FUNDED", "Funded, processing starting...");
   ("INITIATED", "Transfer in progress");
   ("COMPLETED", "Transfer completed!");
   ("EXPIRED", "Intent expired");
   ("REFUNDED", "Transfer refunded")].

Fixpoint lookup_stage (key : string) (table : list (string * string)) : option string :=
  match table with
  | [] => None
  | (k, text) :: rest => if String.eqb k key then Some text else lookup_stage key rest
  end.

(** What [stages[intent.intent_status] || intent.intent_status] can be:
    a text of the table, a member inherited from [Object.prototype] (a
    function or an object, truthy), or the status itself. *)
Inductive status_message : Type :=
| StageText (text : string)
| InheritedMember (name : string)
| RawStatus (status : option json).

Record transfer_status : Type := TransferStatus {
  ts_intent : json;
  ts_webhookEvents : list event;
  ts_statusMessage : status_message;
  ts_isComplete : bool;
  ts_isFailed : bool
}.

(** [getTransferStatus(intentId)], the same text in both services.
    [fetched] is what [await this.intentsService.getIntentStatus(intentId)]
    gives.  The store is read, never written. *)
Definition getTransferStatus (st : store) (fetched : outcome json) : outcome transfer_status :=
  match fetched with
  | Thrown ex => Thrown ex
  | Returned JNull => Thrown TypeError                  (* intent.intent_address of null *)
  | Returned intent =>
      let webhookEvents := get_events st (key_of (member intent "intent_address")) in
      let status := member intent "intent_status" in
      match to_property_key status with
      | None => Thrown TypeError
      | Some key =>
          let statusMessage :=
            match lookup_stage key stages with
            | Some text => StageText text
            | None =>
                if bool_decide (key ∈ object_prototype_names) then InheritedMember key
                else RawStatus status
            end in
          Returned {| ts_intent := intent;
                      ts_webhookEvents := webhookEvents;
                      ts_statusMessage := statusMessage;
                      ts_isComplete := is_string status "COMPLETED";
                      ts_isFailed := is_string status "EXPIRED" || is_string status "REFUNDED" |}
      end
  end.

(* ===================================================================== *)
(** * [getTransferOptions] *)
(* ===================================================================== *)

(** [v || fallback] *)
Definition js_or (v : option json) (fallback : json) : json :=
  match v with
  | Some w => if truthy v then w else fallback
  | None => fallback
  end.

(** Whether a template literal can print [v]: [`${v}`] throws a
    TypeError exactly when [String(v)] does. *)
Definition can_print (v : option json) : bool :=
  match to_property_key v with
  | Some _ => true
  | None => false
  end.

(** [quotes.map((quote, index) => ...)]: the callback may throw, which
    ends the whole call. *)
Fixpoint map_indexed {A : Type} (f : nat -> json -> outcome A) (index : nat) (items : list json)
    : outcome (list A) :=
  match items with
  | [] => Returned []
  | x :: rest =>
      match f index x with
      | Thrown ex => Thrown ex
      | Returned y =>
          match map_indexed f (S index) rest with
          | Thrown ex => Thrown ex
          | Returned ys => Returned (y :: ys)
          end
      end
  end.

(** What [getTransferOptions] returns, over the type of one option. *)
Record transfer_options (A : Type) : Type := TransferOptions {
  to_destinationChain : string;
  to_amount : string;
  to_options : list A;
  to_cheapestOption : option A;            (* options[0] *)
  to_totalOptions : Z                      (* options.length *)
}.
Arguments TransferOptions {A} _ _ _ _ _.
Arguments to_destinationChain {A} _.
Arguments to_amount {A} _.
Arguments to_options {A} _.
Arguments to_cheapestOption {A} _.
Arguments to_totalOptions {A} _.

(** [multiSourceQuotes.quotes.map(f)]: a TypeError when the response is
    [null] or its [quotes] is not an array. *)
Definition options_of_response {A : Type} (f : nat -> json -> outcome A)
    (destinationChain amount : string) (fetched : outcome json)
    : outcome (transfer_options A) :=
  match fetched with
  | Thrown ex => Thrown ex
  | Returned JNull => Thrown TypeError
  | Returned multiSourceQuotes =>
      match member multiSourceQuotes "quotes" with
      | Some (JArr _ quotes) =>
          match map_indexed f 0 quotes with
          | Thrown ex => Thrown ex
          | Returned options =>
              Returned {| to_destinationChain := destinationChain;
                          to_amount := amount;
                          to_options := options;
                          to_cheapestOption := head options;
                          to_totalOptions := Z.of_nat (length options) |}
          end
      | _ => Thrown TypeError
      end
  end.

(** ** [src/api/src/app/app.service.ts] *)
Module ApiOptions.

Record transfer_option : Type := TransferOption {
  index : Z;
  sourceChain : option json;
  type : string;
  fee : json;
  feeFormatted : json;
  bridge : json;
  recommended : bool;
  tokenIn : json;
  amountInSmallestUnit : json
}.

Definition option_of (destinationChain tokenOut : string) (i : nat) (quote : json)
    : outcome transfer_option :=
  match quote with
  | JNull => Thrown TypeError                           (* quote.sourceChain of null *)
  | _ =>
      let isSameChain := is_string (member quote "sourceChain") destinationChain in
      let isCheapest := (i =? 0)%nat in
      let bestQuote := member quote "bestQuote" in
      Returned {| index := Z.of_nat i + 1;
                  sourceChain := member quote "sourceChain";
                  type := if isSameChain then "same-chain" else "cross-chain";
                  fee := js_or (opt_member bestQuote "totalFee") (JStr "0");
                  feeFormatted := js_or (opt_member bestQuote "totalFeeFormatted") (JStr "0");
                  bridge := if isSameChain then JStr "None (same chain)"
                            else js_or (opt_member (opt_member bestQuote "route") "bridgeToUse")
                                       (JStr "Auto-selected");
                  recommended := isCheapest;
                  tokenIn := js_or (opt_member (opt_member bestQuote "route") "tokenIn")
                                   (JStr tokenOut);
                  amountInSmallestUnit := js_or (opt_member bestQuote "amount") (JStr "0") |}
  end.

(** [fetched] is what [await this.quotesService.getMultiSourceQuotes(...)] gives. *)
Definition getTransferOptions (destinationChain amount tokenOut : string) (fetched : outcome json)
    : outcome (transfer_options transfer_option) :=
  options_of_response (option_of destinationChain tokenOut) destinationChain amount fetched.

(** The fields of an option that the demo prints into template literals;
    [type] is a string. *)
Definition printable (o : transfer_option) : bool :=
  can_print (sourceChain o) && can_print (Some (feeFormatted o)).

End ApiOptions.

(** ** [src/server/nestjs-example/src/app/app.service.ts] *)
Module ServerOptions.

Record transfer_option : Type := TransferOption {
  index : Z;
  sourceChain : option json;
  type : string;
  fee : json;
  feeFormatted : json;
  bridge : json;
  recommended : bool
}.

Definition option_of (destinationChain : string) (i : nat) (quote : json)
    : outcome transfer_option :=
  match quote with
  | JNull => Thrown TypeError
  | _ =>
      let isSameChain := is_string (member quote "sourceChain") destinationChain in
      let isCheapest := (i =? 0)%nat in
      let bestQuote := member quote "bestQuote" in
      Returned {| index := Z.of_nat i + 1;
                  sourceChain := member quote "sourceChain";
                  type := if isSameChain then "same-chain" else "cross-chain";
                  fee := js_or (opt_member bestQuote "totalFee") (JStr "0");
                  feeFormatted := js_or (opt_member bestQuote "totalFeeFormatted") (JStr "0");
                  bridge := if isSameChain then JStr "None (same chain)"
                            else js_or (opt_member (opt_member bestQuote "route") "bridgeToUse")
                                       (JStr "Auto-selected");
                  recommended := isCheapest |}
  end.

Definition getTransferOptions (destinationChain amount tokenOut : string) (fetched : outcome json)
    : outcome (transfer_options transfer_option) :=
  options_of_response (option_of destinationChain) destinationChain amount fetched.

Definition printable (o : transfer_option) : bool :=
  can_print (sourceChain o) && can_print (Some (feeFormatted o)).

End ServerOptions.

(** What the server service leaves out of an option of the api service. *)
Definition without_token (opt : ApiOptions.transfer_option) : ServerOptions.transfer_option :=
  {| ServerOptions.index := ApiOptions.index opt;
     ServerOptions.sourceChain := ApiOptions.sourceChain opt;
     ServerOptions.type := ApiOptions.type opt;
     ServerOptions.fee := ApiOptions.fee opt;
     ServerOptions.feeFormatted := ApiOptions.feeFormatted opt;
     ServerOptions.bridge := ApiOptions.bridge opt;
     ServerOptions.recommended := ApiOptions.recommended opt |}.

(* ===================================================================== *)
(** * The interactive demo ([ChainrailsCLI]) *)
(* ===================================================================== *)

(** [selectSource(options)], [selection] being the trimmed answer to the
    prompt.  [throw new Error(m)] in an async method is [Rejected m].
    [printable selected] says whether the lines that report the choice,
    [`${selected.sourceChain}`], [`${selected.feeFormatted}`] and
    [`${selected.type}`], can be printed. *)
Definition selectSource {A : Type} (printable : A -> bool) (options : list A) (selection : string)
    : outcome A :=
  match js_sub (parseInt (Some selection)) (JInt 1) with
  | NaN => Thrown (Rejected "Invalid selection")
  | JInt index =>
      if (index <? 0) || (Z.of_nat (length options) <=? index)
      then Thrown (Rejected "Invalid selection")
      else
        match options !! Z.to_nat index with
        | Some selected => if printable selected then Returned selected else Thrown TypeError
        | None => Thrown TypeError               (* selected.sourceChain of undefined *)
        end
  end.

(** [s || fallback] for strings: the empty string is falsy. *)
Definition string_or (s fallback : string) : string :=
  if String.eqb s "" then fallback else s.

Record UserInput : Type := {
  ui_destinationChain : string;
  ui_amount : string;
  ui_tokenOut : string;
  ui_tokenDecimals : Z;
  ui_recipient : string;
  ui_sender : string;
  ui_refundAddress : string
}.

(** [collectUserInput()], from the six trimmed answers in the order asked. *)
Definition collectUserInput
    (destinationChain amount tokenOut tokenDecimalsStr recipient sender : string) : UserInput :=
  let senderFinal := string_or sender "0x742d35Cc6634C0532925a3b844Bc9e7595f0bEb7" in
  {| ui_destinationChain := string_or destinationChain "ARBITRUM_TESTNET";
     ui_amount := string_or amount "10";
     ui_tokenOut := string_or tokenOut "0x75faf114eafb1BDbe2F0316DF893fd58CE46AA4d";
     ui_tokenDecimals :=
       match parseInt (Some tokenDecimalsStr) with
       | JInt n => if n =? 0 then 6 else n
       | NaN => 6
       end;
     ui_recipient := string_or recipient "0x742d35Cc6634C0532925a3b844Bc9e7595f0bEb7";
     ui_sender := senderFinal;
     ui_refundAddress := senderFinal |}.

(** The report of one status inside the [try] block of
    [monitorTransferStatus] fails, and control passes to [catch], when a
    template literal cannot print the status message, the type of the
    latest event or, for a complete transfer, a truthy [tx_hash], or when
    the intent of a complete transfer is [null]. *)
Definition report_fails (status : transfer_status) : bool :=
  negb (match ts_statusMessage status with
        | RawStatus raw => can_print raw
        | StageText _ | InheritedMember _ => true
        end)
  || negb (match last (ts_webhookEvents status) with
           | Some latestEvent => can_print (ev_type latestEvent)
           | None => true
           end)
  || (ts_isComplete status
      && match ts_intent status with
         | JNull => true
         | intent => truthy (member intent "tx_hash")
                     && negb (can_print (member intent "tx_hash"))
         end).

(** [monitorTransferStatus]: the loop
    [while (!isComplete && attempts < maxAttempts)], [maxAttempts] being
    15.  [polls n] is what the [n]-th call of [getTransferStatus] gives
    (counted from 0); the answer is the number of calls made and the
    final [isComplete]. *)
Definition maxAttempts : nat := 15.

Fixpoint monitor_loop (remaining attempts : nat) (polls : nat -> outcome transfer_status)
    : nat * bool :=
  match remaining with
  | O => (attempts, false)
  | S remaining' =>
      match polls attempts with
      | Returned status =>
          if report_fails status then monitor_loop remaining' (S attempts) polls
          else if ts_isComplete status then (S attempts, true)
          else if ts_isFailed status then (S attempts, true)
          else monitor_loop remaining' (S attempts) polls
      | Thrown _ => monitor_loop remaining' (S attempts) polls
      end
  end.

(** A poll ends the monitoring when its status is complete or failed and
    could be reported. *)
Definition ends_monitoring (p : outcome transfer_status) : bool :=
  match p with
  | Returned status =>
      negb (report_fails status) && (ts_isComplete status || ts_isFailed status)
  | Thrown _ => false
  end.

Definition monitorTransferStatus (polls : nat -> outcome transfer_status) : nat * bool :=
  monitor_loop maxAttempts 0 polls.

(* ===================================================================== *)
(** * The intents endpoints *)
(* ===================================================================== *)

(** The pairs [getAllIntents] appends to its [URLSearchParams]:
    [if (params?.limit) ...append('limit', params.limit.toString())] and
    so on.  A number is falsy when it is 0 or [NaN]. *)
Definition number_param (name : string) (v : option jsnum) : list (string * string) :=
  match v with
  | Some (JInt n) => if n =? 0 then [] else [(name, number_to_string (JInt n))]
  | _ => []
  end.

Definition string_param (name : string) (v : option string) : list (string * string) :=
  match v with
  | Some s => if String.eqb s "" then [] else [(name, s)]
  | None => []
  end.

Definition getAllIntents_query (limit offset : option jsnum) (status : option string)
    : list (string * string) :=
  number_param "limit" limit ++ number_param "offset" offset ++ string_param "status" status.

(** [limit ? parseInt(limit, 10) : undefined] in [IntentsController.getAllIntents]. *)
Definition parse_if_present (v : option string) : option jsnum :=
  match v with
  | Some s => if String.eqb s "" then None else Some (parseInt (Some s))
  | None => None
  end.

Definition IntentsController_getAllIntents_query (limit offset status : option string)
    : list (string * string) :=
  getAllIntents_query (parse_if_present limit) (parse_if_present offset) status.

(* ===================================================================== *)
(** * [formatUnits] ([src/api/src/utils/formatUnits.ts]) *)
(* ===================================================================== *)

Definition is_digit_char (c : ascii) : bool := is_digit (Z.of_N (N_of_ascii c)).

Fixpoint drop_leading_zeros (s : list ascii) : list ascii :=
  match s with
  | c :: rest => if Ascii.eqb c "0" then drop_leading_zeros rest else s
  | [] => []
  end.

(** [s.replace(/0+$/, '')] *)
Definition strip_trailing_zeros (s : list ascii) : list ascii :=
  rev (drop_leading_zeros (rev s)).

(** What [formatUnits] prints for the digits that follow the sign: the
    lines from [padStart] to [formatted]. *)
Definition formatted_of (places : nat) (digits : list ascii) : list ascii :=
  let padded := replicate (places + 1 - length digits) "0"%char ++ digits in
  let integerPart := take (length padded - places) padded in
  let fractionRaw := drop (length padded - places) padded in
  let fractionPart := strip_trailing_zeros fractionRaw in
  if (0 <? length fractionPart)%nat
  then integerPart ++ "."%char :: fractionPart
  else integerPart.

(** [formatUnits(value, decimals)].  [decimals] is an integer or [NaN]
    ([Infinity] takes the same first exit as [NaN]; a fractional
    [decimals] is outside the model, and so is one so large that the
    padded string would exceed what the engine can hold). *)
Definition formatUnits (value : string) (decimals : jsnum) : string :=
  match decimals with
  | NaN => value
  | JInt d =>
      if d <=? 0 then value
      else
        let chars := list_ascii_of_string value in
        let negative := match chars with c :: _ => Ascii.eqb c "-" | [] => false end in
        let digits := List.filter is_digit_char (if negative then drop 1 chars else chars) in
        if (length digits =? 0)%nat then "0"
        else
          let formatted := formatted_of (Z.to_nat d) digits in
          string_of_list_ascii (if negative then "-"%char :: formatted else formatted)
  end.

(* ===================================================================== *)
(** * The express server of the SDK demo ([src/sdk/demo.ts]) *)
(* ===================================================================== *)

Module Sdk.

Inductive response_body : Type :=
| ErrorBody (error : string)
| WebhookReceived (eventId eventType intentAddress : option json)
| TransferCreated (intent : json) (address amount : json) (network : option json)
                  (deadline intentId intentAddress : json).

Record response : Type := Response {
  status : Z;
  body : response_body
}.

(** [app.post("/app/webhook", ...)].  A missing or empty timestamp header
    is replaced by the clock; the two readings of the clock in one
    request are taken to fall in the same second. *)
Definition webhook
    (e : env) (st : store) (payload : json) (signature timestampHeader : option string)
    : run response :=
  let now := now_seconds e in
  let timestamp :=
    match timestampHeader with
    | Some h => if String.eqb h "" then JInt now else parseInt (Some h)
    | None => JInt now
    end in
  let store_event (logs : list log_entry) : run response :=
    let intentAddress := intent_address_of payload in
    let st' :=
      if truthy intentAddress then
        let arr := get_events st (key_of intentAddress) in
        <[key_of intentAddress := arr ++ [event_of e payload]]> st
      else st in
    match payload with
    | JNull => Run (Thrown TypeError) st' logs             (* payload.id of null *)
    | _ =>
        Run (Returned {| status := 200;
                         body := WebhookReceived (member payload "id") (member payload "type")
                                                 intentAddress |})
            st' logs
    end in
  match secret_of e with
  | Some webhookSecret =>
      if js_gt (Math_abs (js_sub (JInt now) timestamp)) (JInt 300) then
        Run (Returned {| status := 400; body := ErrorBody "Invalid timestamp" |}) st []
      else
        let body := JSON_stringify payload in
        let message := number_to_string timestamp +:+ "." +:+ body in
        let computed := "sha256=" +:+ hmac_sha256_hex webhookSecret message in
        if negb (strict_equal computed signature) then
          Run (Returned {| status := 401; body := ErrorBody "Invalid signature" |}) st
              [LogWarn "Invalid webhook signature"]
        else store_event []
  | None =>
      store_event [LogWarn "CHAINRAILS_WEBHOOK_SECRET not set — skipping verification (dev only)"]
  end.

(** [app.post("/app/transfer", ...)]: [created] is what
    [await crapi.intents.create(...)] gives; the log is initialised only
    for a truthy [intent_address], and a failure is answered with 500
    (the [details] of the error body, [String(err)], are left out). *)
Definition transfer (st : store) (sourceChain : option json) (created : outcome json)
    : run response :=
  match created with
  | Thrown _ =>
      Run (Returned {| status := 500; body := ErrorBody "Failed to create intent" |}) st
          [LogWarn "createTransfer failed"]
  | Returned intent =>
      let address := opt_member (Some intent) "intent_address" in
      let st' := if truthy address then <[key_of address := []]> st else st in
      Run (Returned {| status := 200;
                       body := TransferCreated intent
                                 (js_or address JNull)
                                 (js_or (opt_member (Some intent) "totalAmount") JNull)
                                 sourceChain
                                 (js_or (opt_member (Some intent) "expires_at") JNull)
                                 (js_or (opt_member (Some intent) "id") JNull)
                                 (js_or address JNull) |})
          st' []
  end.

End Sdk.

(** A response of [GET /quotes/multi-source] in which the second source
    is the cheaper one. *)
Definition sample_quotes : json :=
  JObj 10 [("quotes",
            JArr 11 [JObj 12 [("sourceChain", JStr "BASE_TESTNET");
                              ("bestQuote", JObj 13 [("totalFee", JStr "9000")])];
                     JObj 14 [("sourceChain", JStr "ARBITRUM_TESTNET");
                              ("bestQuote", JObj 15 [("totalFee", JStr "10")])]])].

(* ===================================================================== *)
(** * Decimal notation, for stating what the code computes *)
(* ===================================================================== *)

(** The decimal numeral of [v] on exactly [k] digits, with leading zeros
    ([numeral 3 42] is "042"); the digits beyond the [k]-th are lost. *)
Fixpoint numeral (k : nat) (v : N) : list ascii :=
  match k with
  | O => []
  | S k' => numeral k' (v / 10) ++ [pretty_N_char (v mod 10)]
  end.

Definition starts_with_digit (s : string) : bool :=
  match s with
  | String c _ => is_digit_char c
  | EmptyString => false
  end.

Definition starts_with_minus (s : string) : bool :=
  match s with
  | String c _ => Ascii.eqb c "-"
  | EmptyString => false
  end.

(** The digits of a string, in order: [s.replace(/[^0-9]/g, '')]. *)
Definition digits_of (s : string) : list ascii :=
  List.filter is_digit_char (list_ascii_of_string s).

(* ===================================================================== *)
(** * The model on known values *)
(* ===================================================================== *)

(** SHA-256 and HMAC on the test vectors of FIPS 180 and RFC 4231. *)
Example sha256_abc :
  hex_of_bytes (Sha256.digest (bytes_of_string "abc"))
  = "ba7816bf8f01cfea414140de5dae2223b00361a396177a9cb410ff61f20015ad".
Proof. vm_compute. reflexivity. Qed.

Example sha256_empty :
  hex_of_bytes (Sha256.digest [])
  = "e3b0c44298fc1c149afbf4c8996fb92427ae41e4649b934ca495991b7852b855".
Proof. vm_compute. reflexivity. Qed.

Example sha256_two_blocks :
  hex_of_bytes (Sha256.digest
    (bytes_of_string "abcdbcdecdefdefgefghfghighijhijkijkljklmklmnlmnomnopnopq"))
  = "248d6a61d20638b8e5c026930c3e6039a33ce45964ff2167f6ecedd419db06c1".
Proof. vm_compute. reflexivity. Qed.

Example hmac_rfc4231_case2 :
  hmac_sha256_hex "Jefe" "what do ya want for nothing?"
  = "5bdcc146bf60754e6a042426089575c75a003f089d2739839dec58b964ec3843".
Proof. vm_compute. reflexivity. Qed.

Example hmac_rfc4231_case6 :
  hex_of_bytes (Sha256.hmac (repeat 170 131)
    (bytes_of_string "Test Using Larger Than Block-Size Key - Hash Key First"))
  = "60e431591ee0b67f0d8a26aacbf5b77f8e0bc6213728c5140546040f0ee37f54".
Proof. vm_compute. reflexivity. Qed.

Example parseInt_plain : parseInt (Some "1700000000") = JInt 1700000000.
Proof. vm_compute. reflexivity. Qed.

Example parseInt_trailing : parseInt (Some "  -42abc") = JInt (-42).
Proof. vm_compute. reflexivity. Qed.

Example parseInt_garbled : parseInt (Some "soon") = NaN.
Proof. vm_compute. reflexivity. Qed.

Example parseInt_missing : parseInt None = NaN.
Proof. vm_compute. reflexivity. Qed.

Example stringify_sample :
  JSON_stringify
    (JObj 0 [("id", JStr "evt_1"); ("n", JNum (-7)); ("l", JArr 1 [JNull; JBool true]);
             ("data", JObj 2 [("intent_address", JStr "0xabc")])])
  = "{" +:+ dquote +:+ "id" +:+ dquote +:+ ":" +:+ dquote +:+ "evt_1" +:+ dquote +:+ ","
        +:+ dquote +:+ "n" +:+ dquote +:+ ":-7,"
        +:+ dquote +:+ "l" +:+ dquote +:+ ":[null,true],"
        +:+ dquote +:+ "data" +:+ dquote +:+ ":{" +:+ dquote +:+ "intent_address" +:+ dquote +:+ ":"
        +:+ dquote +:+ "0xabc" +:+ dquote +:+ "}}".
Proof. vm_compute. reflexivity. Qed.

(** The sample signatures, computed by the model. *)
Example sample_signature_now_ok :
  expected_signature "whsec_test" (JInt 1700000000) Sample.payload = Sample.signature_now.
Proof. vm_compute. reflexivity. Qed.

Example sample_signature_301_ok :
  expected_signature "whsec_test" (JInt 1699999699) Sample.payload = Sample.signature_301.
Proof. vm_compute. reflexivity. Qed.

Example sample_signature_300_ok :
  expected_signature "whsec_test" (JInt 1699999700) Sample.payload = Sample.signature_300.
Proof. vm_compute. reflexivity. Qed.

Example sample_signature_299_ok :
  expected_signature "whsec_test" (JInt 1699999701) Sample.payload = Sample.signature_299.
Proof. vm_compute. reflexivity. Qed.

Example sample_signature_nan_ok :
  expected_signature "whsec_test" NaN Sample.payload = Sample.signature_nan.
Proof. vm_compute. reflexivity. Qed.

Example sample_signature_stray_ok :
  expected_signature "whsec_test" (JInt 1700000000) Sample.stray = Sample.signature_stray.
Proof. vm_compute. reflexivity. Qed.

(* ===================================================================== *)
(** * Facts about the building blocks *)
(* ===================================================================== *)

Section Bytes.

Lemma byte_code_inj (c d : ascii) :
  Z.of_N (N_of_ascii c) = Z.of_N (N_of_ascii d) -> c = d.
Proof.
  intros H. apply N2Z.inj in H.
  rewrite <- (ascii_N_embedding c), <- (ascii_N_embedding d). now rewrite H.
Qed.

Lemma bytes_of_string_inj (s t : string) :
  bytes_of_string s = bytes_of_string t -> s = t.
Proof.
  unfold bytes_of_string. revert t.
  induction s as [|c s IH]; intros [|d t] H; simpl in H; try discriminate; [reflexivity|].
  injection H as Hhd Htl.
  apply byte_code_inj in Hhd. apply IH in Htl. now subst.
Qed.

(** The accumulator of [timingSafeEqual] ends at zero exactly when it
    started there and no pair of bytes differed. *)
Lemma fold_differences_zero (pairs : list (Z * Z)) (acc : Z) :
  fold_left (fun acc xy => Z.lor acc (Z.lxor (fst xy) (snd xy))) pairs acc = 0
  <-> acc = 0 /\ Forall (fun xy => fst xy = snd xy) pairs.
Proof.
  revert acc. induction pairs as [|[x y] pairs IH]; intros acc; simpl.
  - split; [intros ->; split; [reflexivity|constructor] | now intros [-> _]].
  - rewrite IH, Z.lor_eq_0_iff, Z.lxor_eq_0_iff. split.
    + intros [[-> ->] Hall]. split; [reflexivity|]. now constructor.
    + intros [-> Hall]. inversion Hall as [|? ? Hxy Hrest]; subst. simpl in Hxy. tauto.
Qed.

Lemma combine_all_equal (a b : list Z) :
  length a = length b ->
  Forall (fun xy => fst xy = snd xy) (combine a b) <-> a = b.
Proof.
  revert b. induction a as [|x a IH]; intros [|y b] Hlen; simpl in Hlen; try discriminate.
  - split; [reflexivity | constructor].
  - injection Hlen as Hlen. simpl. split.
    + intros Hall. inversion Hall as [|? ? Hxy Hrest]; subst. simpl in Hxy.
      apply IH in Hrest; [now subst | assumption].
    + intros [= -> ->]. constructor; [reflexivity | now apply IH].
Qed.

(** On buffers of one length [timingSafeEqual] decides equality. *)
Lemma timingSafeEqual_same_length (a b : list Z) :
  length a = length b -> timingSafeEqual a b = inr (bool_decide (a = b)).
Proof.
  intros Hlen. unfold timingSafeEqual.
  rewrite Hlen, Nat.eqb_refl. cbn [negb]. f_equal.
  destruct (decide (a = b)) as [Heq | Hne].
  - rewrite (bool_decide_eq_true_2 _ Heq). apply Z.eqb_eq.
    apply fold_differences_zero. split; [reflexivity|]. now apply combine_all_equal.
  - rewrite (bool_decide_eq_false_2 _ Hne). apply Z.eqb_neq.
    intros H. apply fold_differences_zero in H as [_ H].
    apply combine_all_equal in H; [contradiction | assumption].
Qed.

Lemma strict_equal_decides (computed : string) (signature : option string) :
  strict_equal computed signature = bool_decide (signature = Some computed).
Proof.
  destruct signature as [s|]; unfold strict_equal.
  - destruct (String.eqb_spec computed s) as [-> | Hne].
    + now rewrite bool_decide_eq_true_2.
    + rewrite bool_decide_eq_false_2; [reflexivity | congruence].
  - now rewrite bool_decide_eq_false_2.
Qed.

End Bytes.

(** ** The two verifiers *)

Lemma stale_int (e : env) (t : Z) :
  stale e (JInt t) = (300 <? Z.abs (now_seconds e - t)).
Proof. reflexivity. Qed.

Lemma stale_nan (e : env) : stale e NaN = false.
Proof. reflexivity. Qed.

Lemma secret_of_cases (e : env) :
  secret_of e = None <->
  CHAINRAILS_WEBHOOK_SECRET e = None \/ CHAINRAILS_WEBHOOK_SECRET e = Some "".
Proof.
  unfold secret_of. destruct (CHAINRAILS_WEBHOOK_SECRET e) as [s|].
  - destruct (String.eqb_spec s "") as [-> | Hne]; split; auto; try discriminate.
    intros [H | H]; congruence.
  - split; auto.
Qed.

Lemma api_verify_configured e secret payload signature timestamp :
  secret_of e = Some secret ->
  Api.verifyWebhookSignature e payload signature timestamp
  = (negb (stale e timestamp)
     && bool_decide (signature = Some (expected_signature secret timestamp payload)), []).
Proof.
  intros Hs. unfold Api.verifyWebhookSignature. rewrite Hs. fold (stale e timestamp).
  destruct (stale e timestamp); [reflexivity|]. cbv zeta.
  fold (expected_signature secret timestamp payload).
  now rewrite strict_equal_decides.
Qed.

Lemma server_verify_configured e secret payload signature timestamp :
  secret_of e = Some secret ->
  fst (Server.verifyWebhookSignature e payload signature timestamp)
  = negb (stale e timestamp)
    && bool_decide (signature = Some (expected_signature secret timestamp payload)).
Proof.
  intros Hs. unfold Server.verifyWebhookSignature. rewrite Hs.
  change (js_gt _ (JInt Server.MAX_TIMESTAMP_AGE)) with (stale e timestamp).
  destruct (stale e timestamp); [reflexivity|]. cbn [negb andb]. cbv zeta.
  fold (expected_signature secret timestamp payload).
  set (computed := expected_signature secret timestamp payload).
  destruct signature as [s|]; cbn [Buffer_from].
  - destruct (Nat.eqb_spec (length (bytes_of_string s)) (length (bytes_of_string computed)))
      as [Hlen | Hlen]; cbn [negb].
    + rewrite (timingSafeEqual_same_length _ _ Hlen). cbn [fst].
      apply bool_decide_ext. split.
      * intros H. apply bytes_of_string_inj in H. now subst.
      * intros [= ->]. reflexivity.
    + cbn [fst]. symmetry. apply bool_decide_eq_false_2. intros [= ->]. now apply Hlen.
  - cbn [fst]. symmetry. now apply bool_decide_eq_false_2.
Qed.

(** Both verifiers give the same verdict on every delivery. *)
Lemma verifiers_agree e payload signature timestamp :
  fst (Server.verifyWebhookSignature e payload signature timestamp)
  = fst (Api.verifyWebhookSignature e payload signature timestamp).
Proof.
  destruct (secret_of e) as [secret|] eqn:Hs.
  - now rewrite (server_verify_configured _ _ _ _ _ Hs), (api_verify_configured _ _ _ _ _ Hs).
  - unfold Server.verifyWebhookSignature, Api.verifyWebhookSignature. now rewrite Hs.
Qed.

(** In the server the length test comes before the comparison: on
    signatures of different byte lengths it answers [false] and the
    [catch] branch, where a throwing [timingSafeEqual] would end, is not
    taken. *)
Lemma server_length_mismatch e secret payload received timestamp :
  secret_of e = Some secret ->
  stale e timestamp = false ->
  length (bytes_of_string received)
    <> length (bytes_of_string (expected_signature secret timestamp payload)) ->
  Server.verifyWebhookSignature e payload (Some received) timestamp = (false, []).
Proof.
  intros Hs Hfresh Hlen. unfold Server.verifyWebhookSignature. rewrite Hs.
  change (js_gt _ (JInt Server.MAX_TIMESTAMP_AGE)) with (stale e timestamp).
  rewrite Hfresh. cbv zeta. fold (expected_signature secret timestamp payload).
  cbn [Buffer_from].
  destruct (Nat.eqb_spec (length (bytes_of_string received))
              (length (bytes_of_string (expected_signature secret timestamp payload))));
    [contradiction | reflexivity].
Qed.

(** What the last step of verification computes in the server: [false]
    on signatures of different byte lengths, and on equal lengths whether
    the bytes are the same.  The api service computes the same value with
    [===] ([verifiers_agree]).  How long either comparison takes is not
    part of this model. *)
Lemma server_signature_comparison e secret payload received timestamp :
  secret_of e = Some secret ->
  stale e timestamp = false ->
  let computed := bytes_of_string (expected_signature secret timestamp payload) in
  let verdict := fst (Server.verifyWebhookSignature e payload (Some received) timestamp) in
  (length (bytes_of_string received) <> length computed -> verdict = false)
  /\ (length (bytes_of_string received) = length computed ->
      verdict = bool_decide (bytes_of_string received = computed)).
Proof.
  intros Hs Hfresh computed verdict. subst computed verdict. split.
  - intros Hlen. now rewrite (server_length_mismatch _ _ _ _ _ Hs Hfresh Hlen).
  - intros Hlen. rewrite (server_verify_configured _ _ _ _ _ Hs), Hfresh. cbn [negb andb].
    apply bool_decide_ext. split.
    + intros [= ->]. reflexivity.
    + intros H. apply bytes_of_string_inj in H. now subst.
Qed.

(** ** The handler, over any verifier *)

Section HandlerFacts.

Variable verify : env -> json -> option string -> jsnum -> bool * list log_entry.

Lemma handle_rejected e st payload signature timestamp :
  fst (verify e payload signature timestamp) = false ->
  handleWebhookEvent_with verify e st payload signature timestamp
  = Run (Thrown (UnauthorizedException "Invalid webhook signature")) st
        (snd (verify e payload signature timestamp)).
Proof.
  intros H. unfold handleWebhookEvent_with.
  destruct (verify e payload signature timestamp) as [ok logs]. simpl in H. now subst.
Qed.

Lemma handle_accepted e st payload signature timestamp :
  fst (verify e payload signature timestamp) = true ->
  payload <> JNull ->
  handleWebhookEvent_with verify e st payload signature timestamp
  = Run (Returned {| received := true;
                     eventId := member payload "id";
                     eventType := member payload "type";
                     intentAddress := intent_address_of payload |})
        (if truthy (intent_address_of payload)
         then <[key_of (intent_address_of payload) :=
                  get_events st (key_of (intent_address_of payload)) ++ [event_of e payload]]> st
         else st)
        (snd (verify e payload signature timestamp)).
Proof.
  intros H Hnn. unfold handleWebhookEvent_with.
  destruct (verify e payload signature timestamp) as [ok logs]. simpl in H. subst ok.
  cbn [negb snd]. destruct payload; try reflexivity. contradiction.
Qed.

Lemma handle_null e st signature timestamp :
  fst (verify e JNull signature timestamp) = true ->
  handleWebhookEvent_with verify e st JNull signature timestamp
  = Run (Thrown TypeError) st (snd (verify e JNull signature timestamp)).
Proof.
  intros H. unfold handleWebhookEvent_with.
  destruct (verify e JNull signature timestamp) as [ok logs]. simpl in H. now subst.
Qed.

(** Whatever the verdict, only the log of the delivery's own address can change. *)
Lemma handle_frame e st payload signature timestamp (k : mapkey) :
  k <> key_of (intent_address_of payload) ->
  webhookEvents (handleWebhookEvent_with verify e st payload signature timestamp) !! k
  = st !! k.
Proof.
  intros Hk.
  destruct (fst (verify e payload signature timestamp)) eqn:Hv.
  - destruct (decide (payload = JNull)) as [-> | Hnn].
    + now rewrite handle_null.
    + rewrite handle_accepted by assumption. cbn [webhookEvents].
      destruct (truthy (intent_address_of payload)); [|reflexivity].
      now rewrite lookup_insert_ne.
  - now rewrite handle_rejected.
Qed.

(** A string address that is not empty selects its own log. *)
Lemma handle_appends e st payload signature timestamp (addr : string) :
  fst (verify e payload signature timestamp) = true ->
  intent_address_of payload = Some (JStr addr) ->
  addr <> "" ->
  handleWebhookEvent_with verify e st payload signature timestamp
  = Run (Returned {| received := true;
                     eventId := member payload "id";
                     eventType := member payload "type";
                     intentAddress := Some (JStr addr) |})
        (<[KStr addr := getEvents st addr ++ [event_of e payload]]> st)
        (snd (verify e payload signature timestamp)).
Proof.
  intros Hv Haddr Hne.
  assert (Hnn : payload <> JNull) by (intros ->; discriminate Haddr).
  rewrite handle_accepted by assumption. rewrite Haddr. cbn [truthy key_of].
  destruct (String.eqb_spec addr "") as [-> | _]; [contradiction | reflexivity].
Qed.

End HandlerFacts.

(** ** Either service *)

Lemma handleWebhookEvent_unfold svc :
  handleWebhookEvent svc = handleWebhookEvent_with (verifyWebhookSignature svc).
Proof. now destruct svc. Qed.

Lemma handleWebhook_unfold svc e st payload signature header :
  handleWebhook svc e st payload signature header
  = let r := handleWebhookEvent svc e st payload signature (parseInt header) in
    match result r with
    | Returned res =>
        Run (Returned {| ack_received := true;
                         ack_eventId := eventId res;
                         ack_eventType := eventType res |})
            (webhookEvents r) (logged r)
    | Thrown ex => Run (Thrown ex) (webhookEvents r) (logged r)
    end.
Proof. now destruct svc. Qed.

(** With a secret configured a delivery passes exactly when it is not
    stale and carries the expected signature. *)
Lemma verify_configured svc e secret payload signature timestamp :
  secret_of e = Some secret ->
  fst (verifyWebhookSignature svc e payload signature timestamp)
  = negb (stale e timestamp)
    && bool_decide (signature = Some (expected_signature secret timestamp payload)).
Proof.
  intros Hs. destruct svc; cbn [verifyWebhookSignature].
  - now rewrite (api_verify_configured _ _ _ _ _ Hs).
  - now apply server_verify_configured.
Qed.




Lemma verify_no_secret svc e payload signature timestamp :
  secret_of e = None ->
  fst (verifyWebhookSignature svc e payload signature timestamp) = true
  /\ exists msg, snd (verifyWebhookSignature svc e payload signature timestamp) = [LogWarn msg].
Proof.
  intros Hs.
  destruct svc; cbn [verifyWebhookSignature];
    unfold Api.verifyWebhookSignature, Server.verifyWebhookSignature; rewrite Hs;
    (split; [reflexivity | eexists; reflexivity]).
Qed.

Lemma createTransfer_store (st : store) (sourceChain : string) (intent : json) :
  intent <> JNull ->
  webhookEvents (createTransfer st sourceChain (Returned intent))
  = <[key_of (member intent "intent_address") := []]> st.
Proof. intros Hnn. destruct intent; try reflexivity. contradiction. Qed.


Lemma expected_signature_int (secret : string) (ts : Z) (payload : json) :
  expected_signature secret (JInt ts) payload
  = "sha256=" +:+ hmac_sha256_hex secret (pretty ts +:+ "." +:+ JSON_stringify payload).
Proof. reflexivity. Qed.


Lemma accepted_appends svc e st payload signature timestamp (addr : string) :
  fst (verifyWebhookSignature svc e payload signature timestamp) = true ->
  intent_address_of payload = Some (JStr addr) ->
  addr <> "" ->
  handleWebhookEvent svc e st payload signature timestamp
  = Run (Returned {| received := true;
                     eventId := member payload "id";
                     eventType := member payload "type";
                     intentAddress := Some (JStr addr) |})
        (<[KStr addr := getEvents st addr ++ [event_of e payload]]> st)
        (snd (verifyWebhookSignature svc e payload signature timestamp)).
Proof.
  intros Hv Haddr Hne. rewrite handleWebhookEvent_unfold. now apply handle_appends.
Qed.

Lemma getEvents_insert (st : store) (addr : string) (events : list event) :
  getEvents (<[KStr addr := events]> st) addr = events.
Proof. unfold getEvents, get_events. now rewrite lookup_insert_eq. Qed.

(* ===================================================================== *)
(** * Properties of the webhook receiver *)
(* ===================================================================== *)



(** C2 (as stated, refuted).  Creating a transfer a second time for the
    same intent address, after a verified webhook event was appended to
    its log, leaves that log empty: the event is gone. *)
Lemma second_createTransfer_erases_event :
  let st1 := webhookEvents (createTransfer ∅ "BASE_TESTNET" (Returned Sample.intent)) in
  let st2 := webhookEvents (handleWebhookEvent ApiService Sample.environment st1 Sample.payload
                              (Some Sample.signature_now) (JInt 1700000000)) in
  let st3 := webhookEvents (createTransfer st2 "BASE_TESTNET" (Returned Sample.intent)) in
  getEvents st1 "0xabc" = []
  /\ getEvents st2 "0xabc" = [event_of Sample.environment Sample.payload]
  /\ getEvents st3 "0xabc" = [].
Proof.
  cbv zeta. rewrite !createTransfer_store by discriminate.
  change (key_of (member Sample.intent "intent_address")) with (KStr "0xabc").
  assert (Hv : fst (verifyWebhookSignature ApiService Sample.environment Sample.payload
                      (Some Sample.signature_now) (JInt 1700000000)) = true)
    by (vm_compute; reflexivity).
  assert (Hne : "0xabc" <> "") by discriminate.
  pose proof (accepted_appends ApiService Sample.environment (<[KStr "0xabc" := []]> ∅)
                Sample.payload (Some Sample.signature_now) (JInt 1700000000) "0xabc"
                Hv eq_refl Hne) as Happ.
  rewrite Happ. cbn [webhookEvents]. rewrite !getEvents_insert. auto.
Qed.

(** C2 (amended).  [createTransfer] sets the log of the new intent's
    address to the empty list whatever was there: afterwards the log is
    empty, and doing it again at once changes nothing. *)
Theorem createTransfer_resets_log
    (st : store) (sourceChain : string) (intent : json) (addr : string) :
  member intent "intent_address" = Some (JStr addr) ->
  let r := createTransfer st sourceChain (Returned intent) in
  getEvents (webhookEvents r) addr = []
  /\ webhookEvents (createTransfer (webhookEvents r) sourceChain (Returned intent))
     = webhookEvents r.
Proof.
  intros Haddr r. subst r.
  assert (Hnn : intent <> JNull) by (intros ->; discriminate Haddr).
  rewrite !createTransfer_store by assumption. rewrite Haddr. cbn [key_of]. split.
  - apply getEvents_insert.
  - apply insert_insert_eq.
Qed.

Lemma createTransfer_resets_log_witness :
  let r := createTransfer (<[KStr "0xabc" := [event_of Sample.environment Sample.payload]]> ∅)
             "BASE_TESTNET" (Returned Sample.intent) in
  getEvents (webhookEvents r) "0xabc" = []
  /\ webhookEvents (createTransfer (webhookEvents r) "BASE_TESTNET" (Returned Sample.intent))
     = webhookEvents r.
Proof.
  apply (createTransfer_resets_log _ "BASE_TESTNET" Sample.intent "0xabc"). reflexivity.
Defined.






(** C6.  When the secret is absent or empty, both verifiers answer [true]
    for every payload, signature header and timestamp, and write one
    warning; [handleWebhookEvent] then returns its result with
    [received = true], the warning is in its log, and when the payload
    carries an intent address the event is appended to that address's
    log: the entry holds the payload's [id], [type], [created_at] and
    [data], and the time of receipt. *)
Theorem missing_secret_skips_verification
    (svc : service) (e : env) (st : store) (payload : json)
    (signature : option string) (timestamp : jsnum) :
  CHAINRAILS_WEBHOOK_SECRET e = None \/ CHAINRAILS_WEBHOOK_SECRET e = Some "" ->
  payload <> JNull ->
  let verdict := verifyWebhookSignature svc e payload signature timestamp in
  let r := handleWebhookEvent svc e st payload signature timestamp in
  fst verdict = true
  /\ (exists msg, snd verdict = [LogWarn msg])
  /\ result r = Returned {| received := true;
                            eventId := member payload "id";
                            eventType := member payload "type";
                            intentAddress := intent_address_of payload |}
  /\ (exists msg, logged r = [LogWarn msg])
  /\ (forall addr : string,
        intent_address_of payload = Some (JStr addr) -> addr <> "" ->
        getEvents (webhookEvents r) addr
        = getEvents st addr
          ++ [{| ev_id := member payload "id";
                ev_type := member payload "type";
                ev_created_at := member payload "created_at";
                ev_data := member payload "data";
                ev_receivedAt := Date_toISOString e |}]).
Proof.
  intros Hsecret Hnn. apply secret_of_cases in Hsecret.
  destruct (verify_no_secret svc e payload signature timestamp Hsecret) as [Hv [msg Hlog]].
  cbv zeta. rewrite handleWebhookEvent_unfold.
  split; [| split; [| split; [| split]]].
  - exact Hv.
  - exists msg. exact Hlog.
  - now rewrite handle_accepted.
  - exists msg. rewrite handle_accepted by assumption. exact Hlog.
  - intros addr Haddr Hne.
    rewrite (handle_appends _ _ _ _ _ _ addr) by assumption.
    exact (getEvents_insert st addr (getEvents st addr ++ [event_of e payload])).
Qed.

(** Without a secret, a delivery with a forged signature and a timestamp
    of the year 1970 is accepted and recorded. *)
Lemma missing_secret_skips_verification_witness :
  let r := handleWebhookEvent ServerService Sample.unprotected ∅ Sample.payload
             (Some "sha256=forged") (JInt 0) in
  fst (verifyWebhookSignature ServerService Sample.unprotected Sample.payload
         (Some "sha256=forged") (JInt 0)) = true
  /\ (exists res, result r = Returned res)
  /\ (exists msg, logged r = [LogWarn msg])
  /\ getEvents (webhookEvents r) "0xabc"
     = getEvents ∅ "0xabc"
       ++ [{| ev_id := Some (JStr "evt_1");
                ev_type := Some (JStr "intent.funded");
                ev_created_at := Some (JStr "2023-11-14T22:13:19Z");
                ev_data := Some (JObj 1 [("intent_address", JStr "0xabc");
                                         ("status", JStr "FUNDED")]);
                ev_receivedAt := "2023-11-14T22:13:20.123Z" |}].
Proof.
  destruct (missing_secret_skips_verification ServerService Sample.unprotected ∅ Sample.payload
              (Some "sha256=forged") (JInt 0) (or_introl eq_refl))
    as (Hv & _ & Hres & Hlog & Hrec).
  { discriminate. }
  split; [| split; [| split]].
  - exact Hv.
  - eexists. exact Hres.
  - exact Hlog.
  - apply (Hrec "0xabc"); [reflexivity | discriminate].
Defined.




(** C8.  A delivery that passes verification and whose payload has no
    [data.intent_address] is accepted: [handleWebhookEvent] returns
    [received = true] with [intentAddress] undefined, which marks the
    event as received but not correlated, and the store is unchanged. *)
Theorem uncorrelated_delivery_is_not_recorded
    (svc : service) (e : env) (st : store) (payload : json)
    (signature : option string) (timestamp : jsnum) :
  fst (verifyWebhookSignature svc e payload signature timestamp) = true ->
  payload <> JNull ->
  intent_address_of payload = None ->
  let r := handleWebhookEvent svc e st payload signature timestamp in
  result r = Returned {| received := true;
                         eventId := member payload "id";
                         eventType := member payload "type";
                         intentAddress := None |}
  /\ webhookEvents r = st.
Proof.
  intros Hv Hnn Habsent. cbv zeta. rewrite handleWebhookEvent_unfold.
  rewrite handle_accepted by assumption. rewrite Habsent. cbn [truthy result webhookEvents].
  auto.
Qed.

Lemma uncorrelated_delivery_is_not_recorded_witness :
  let st : store := <[KStr "0xabc" := []]> ∅ in
  let r := handleWebhookEvent ServerService Sample.environment st Sample.stray
             (Some Sample.signature_stray) (JInt 1700000000) in
  result r = Returned {| received := true;
                         eventId := Some (JStr "evt_2");
                         eventType := Some (JStr "intent.completed");
                         intentAddress := None |}
  /\ webhookEvents r = st.
Proof.
  apply (uncorrelated_delivery_is_not_recorded ServerService Sample.environment _ Sample.stray
           (Some Sample.signature_stray) (JInt 1700000000)).
  - vm_compute. reflexivity.
  - discriminate.
  - reflexivity.
Defined.

(** C9.  Two deliveries with the same event id that both pass
    verification and carry the same intent address leave two entries in
    that address's log, one per call, in the order of the calls: nothing
    is dropped for having an id already seen. *)
Theorem redelivery_is_recorded_twice
    (svc : service) (e1 e2 : env) (st : store) (p1 p2 : json)
    (sig1 sig2 : option string) (ts1 ts2 : jsnum) (addr : string) :
  member p1 "id" = member p2 "id" ->
  intent_address_of p1 = Some (JStr addr) ->
  intent_address_of p2 = Some (JStr addr) ->
  addr <> "" ->
  fst (verifyWebhookSignature svc e1 p1 sig1 ts1) = true ->
  fst (verifyWebhookSignature svc e2 p2 sig2 ts2) = true ->
  let st1 := webhookEvents (handleWebhookEvent svc e1 st p1 sig1 ts1) in
  let st2 := webhookEvents (handleWebhookEvent svc e2 st1 p2 sig2 ts2) in
  getEvents st2 addr = getEvents st addr ++ [event_of e1 p1; event_of e2 p2]
  /\ ev_id (event_of e1 p1) = ev_id (event_of e2 p2).
Proof.
  intros Hid Ha1 Ha2 Hne Hv1 Hv2. cbv zeta.
  rewrite (accepted_appends svc e1 st p1 sig1 ts1 addr Hv1 Ha1 Hne). cbn [webhookEvents].
  rewrite (accepted_appends svc e2 _ p2 sig2 ts2 addr Hv2 Ha2 Hne). cbn [webhookEvents].
  rewrite !getEvents_insert, <- app_assoc. split; [reflexivity | exact Hid].
Qed.

(** The sample delivery arrives twice, unchanged. *)
Lemma redelivery_is_recorded_twice_witness :
  let st1 := webhookEvents (handleWebhookEvent ApiService Sample.environment ∅ Sample.payload
                              (Some Sample.signature_now) (JInt 1700000000)) in
  let st2 := webhookEvents (handleWebhookEvent ApiService Sample.environment st1 Sample.payload
                              (Some Sample.signature_now) (JInt 1700000000)) in
  getEvents st2 "0xabc"
  = getEvents ∅ "0xabc" ++ [event_of Sample.environment Sample.payload;
                            event_of Sample.environment Sample.payload]
  /\ ev_id (event_of Sample.environment Sample.payload)
     = ev_id (event_of Sample.environment Sample.payload).
Proof.
  assert (Hv : fst (verifyWebhookSignature ApiService Sample.environment Sample.payload
                      (Some Sample.signature_now) (JInt 1700000000)) = true)
    by (vm_compute; reflexivity).
  assert (Hne : "0xabc" <> "") by discriminate.
  exact (redelivery_is_recorded_twice ApiService Sample.environment Sample.environment ∅
           Sample.payload Sample.payload
           (Some Sample.signature_now) (Some Sample.signature_now)
           (JInt 1700000000) (JInt 1700000000) "0xabc"
           eq_refl eq_refl eq_refl Hne Hv Hv).
Defined.

(** C10.  A call of [handleWebhookEvent] leaves the entry of every key
    other than the delivery's own intent address as it was, whatever the
    verdict; so does [createTransfer] for every key other than the
    address of the intent it created, and it leaves the whole store alone
    when creating the intent failed. *)
Theorem only_own_log_changes
    (svc : service) (e : env) (st : store) (payload : json)
    (signature : option string) (timestamp : jsnum)
    (sourceChain : string) (intent : json) (ex : exn) (k : mapkey) :
  (k <> key_of (intent_address_of payload) ->
   webhookEvents (handleWebhookEvent svc e st payload signature timestamp) !! k = st !! k)
  /\ (k <> key_of (member intent "intent_address") ->
      webhookEvents (createTransfer st sourceChain (Returned intent)) !! k = st !! k)
  /\ webhookEvents (createTransfer st sourceChain (Thrown ex)) = st.
Proof.
  split; [| split].
  - intros Hk. rewrite handleWebhookEvent_unfold. now apply handle_frame.
  - intros Hk. destruct (decide (intent = JNull)) as [-> | Hnn]; [reflexivity|].
    rewrite createTransfer_store by assumption. now rewrite lookup_insert_ne.
  - reflexivity.
Qed.

(** The log of another intent stays as it is while the sample delivery
    is recorded and while its transfer is created. *)
Lemma only_own_log_changes_witness :
  let st : store := <[KStr "0xdef" := [event_of Sample.environment Sample.stray]]> ∅ in
  webhookEvents (handleWebhookEvent ApiService Sample.environment st Sample.payload
                   (Some Sample.signature_now) (JInt 1700000000)) !! KStr "0xdef"
  = st !! KStr "0xdef"
  /\ webhookEvents (createTransfer st "BASE_TESTNET" (Returned Sample.intent)) !! KStr "0xdef"
     = st !! KStr "0xdef".
Proof.
  cbv zeta.
  destruct (only_own_log_changes ApiService Sample.environment
              (<[KStr "0xdef" := [event_of Sample.environment Sample.stray]]> ∅)
              Sample.payload (Some Sample.signature_now) (JInt 1700000000)
              "BASE_TESTNET" Sample.intent TypeError (KStr "0xdef")) as (Hh & Hc & _).
  split; [apply Hh | apply Hc]; discriminate.
Defined.

(* ===================================================================== *)
(** * Further facts about the webhook receiver *)
(* ===================================================================== *)

Lemma is_string_spec (v : option json) (s : string) :
  is_string v s = true <-> v = Some (JStr s).
Proof.
  unfold is_string. destruct v as [[| | |t| |]|]; try (split; [discriminate | intros [=]]).
  - destruct (String.eqb_spec t s) as [-> | Hne]; split; auto; try discriminate.
    intros [= ->]. contradiction.
Qed.

Lemma key_of_string (v : option json) (s : string) :
  key_of v = KStr s <-> v = Some (JStr s).
Proof.
  split; [| intros ->; reflexivity].
  destruct v as [[| | | | |]|]; simpl; intros H; try discriminate. now injection H as ->.
Qed.

(** The store one request leaves. *)
Lemma deliver_unfold (svc : service) (st : store) (d : delivery) :
  deliver svc st d
  = if fst (verifyWebhookSignature svc (d_env d) (d_payload d) (d_signature d) (d_timestamp d))
       && bool_decide (d_payload d <> JNull)
       && truthy (intent_address_of (d_payload d))
    then <[key_of (intent_address_of (d_payload d)) :=
             get_events st (key_of (intent_address_of (d_payload d)))
             ++ [event_of (d_env d) (d_payload d)]]> st
    else st.
Proof.
  unfold deliver. rewrite handleWebhookEvent_unfold.
  destruct (fst (verifyWebhookSignature svc (d_env d) (d_payload d) (d_signature d)
                   (d_timestamp d))) eqn:Hv; cbn [andb].
  - destruct (decide (d_payload d = JNull)) as [Hnull | Hnn].
    + rewrite bool_decide_eq_false_2 by (intros H; now apply H). cbn [andb].
      revert Hv. rewrite Hnull. intros Hv. now rewrite handle_null.
    + rewrite (bool_decide_eq_true_2 _ Hnn). cbn [andb].
      now rewrite handle_accepted.
  - now rewrite handle_rejected.
Qed.

Lemma get_events_insert_ne (st : store) (k k' : mapkey) (events : list event) :
  k <> k' -> get_events (<[k := events]> st) k' = get_events st k'.
Proof. intros Hne. unfold get_events. now rewrite lookup_insert_ne. Qed.

Lemma get_events_insert_eq (st : store) (k : mapkey) (events : list event) :
  get_events (<[k := events]> st) k = events.
Proof. unfold get_events. now rewrite lookup_insert_eq. Qed.

(** X1.  With a secret configured a delivery passes verification, in
    either service, exactly when its timestamp does not fail the age
    test and its signature header is the expected signature; without a
    secret every delivery passes.  (The timestamp and the numbers of the
    payload are integers that JS holds exactly.) *)
Theorem verdict_characterised
    (svc : service) (e : env) (payload : json)
    (signature : option string) (timestamp : jsnum) :
  prints_exactly timestamp = true ->
  exact_numbers payload = true ->
  fst (verifyWebhookSignature svc e payload signature timestamp) = true
  <-> secret_of e = None
      \/ exists secret : string,
           secret_of e = Some secret
           /\ js_gt (Math_abs (js_sub (JInt (now_seconds e)) timestamp)) (JInt 300) = false
           /\ signature
              = Some ("sha256=" +:+ hmac_sha256_hex secret
                        (number_to_string timestamp +:+ "." +:+ JSON_stringify payload)).
Proof.
  intros _ _.
  destruct (secret_of e) as [secret|] eqn:Hs.
  - rewrite (verify_configured _ _ _ _ _ _ Hs). fold (stale e timestamp).
    fold (expected_signature secret timestamp payload). split.
    + intros H. apply andb_true_iff in H as [Hfresh Hsig]. right. exists secret.
      apply negb_true_iff in Hfresh. apply bool_decide_eq_true_1 in Hsig. auto.
    + intros [H | (secret' & [= <-] & Hfresh & Hsig)]; [discriminate|].
      rewrite Hfresh. cbn [negb andb]. now apply bool_decide_eq_true_2.
  - split; [auto|]. intros _. now apply verify_no_secret.
Qed.

Lemma verdict_characterised_witness :
  fst (verifyWebhookSignature ServerService Sample.environment Sample.payload
         (Some Sample.signature_now) (JInt 1700000000)) = true
  <-> secret_of Sample.environment = None
      \/ exists secret : string,
           secret_of Sample.environment = Some secret
           /\ js_gt (Math_abs (js_sub (JInt (now_seconds Sample.environment))
                                      (JInt 1700000000))) (JInt 300) = false
           /\ Some Sample.signature_now
              = Some ("sha256=" +:+ hmac_sha256_hex secret
                        (number_to_string (JInt 1700000000) +:+ "."
                         +:+ JSON_stringify Sample.payload)).
Proof.
  apply (verdict_characterised ServerService Sample.environment Sample.payload
           (Some Sample.signature_now) (JInt 1700000000)).
  - reflexivity.
  - reflexivity.
Defined.

(** X2.  The two services treat every delivery alike: [handleWebhookEvent]
    returns the same value or throws the same exception, and leaves the
    same store (only what they log differs). *)
Theorem services_agree
    (e : env) (st : store) (payload : json) (signature : option string) (timestamp : jsnum) :
  result (Server.handleWebhookEvent e st payload signature timestamp)
  = result (Api.handleWebhookEvent e st payload signature timestamp)
  /\ webhookEvents (Server.handleWebhookEvent e st payload signature timestamp)
     = webhookEvents (Api.handleWebhookEvent e st payload signature timestamp).
Proof.
  unfold Server.handleWebhookEvent, Api.handleWebhookEvent.
  pose proof (verifiers_agree e payload signature timestamp) as Hagree.
  destruct (fst (Api.verifyWebhookSignature e payload signature timestamp)) eqn:Hv.
  - destruct (decide (payload = JNull)) as [-> | Hnn].
    + now rewrite !handle_null.
    + now rewrite !handle_accepted.
  - now rewrite !handle_rejected.
Qed.

(** X3.  A call of [handleWebhookEvent] only ever adds to the store: the
    log of every key is what it was, followed by at most one new event,
    and a key that had an entry keeps one. *)
Theorem logs_only_grow
    (svc : service) (e : env) (st : store) (payload : json)
    (signature : option string) (timestamp : jsnum) (k : mapkey) :
  let st' := webhookEvents (handleWebhookEvent svc e st payload signature timestamp) in
  (exists more : list event,
      get_events st' k = get_events st k ++ more /\ (length more <= 1)%nat)
  /\ (is_Some (st !! k) -> is_Some (st' !! k)).
Proof.
  cbv zeta.
  change (webhookEvents (handleWebhookEvent svc e st payload signature timestamp))
    with (deliver svc st (Delivery e payload signature timestamp)).
  rewrite deliver_unfold. cbn [d_env d_payload d_signature d_timestamp].
  destruct (_ && _ && _).
  - destruct (decide (key_of (intent_address_of payload) = k)) as [<- | Hne].
    + split.
      * eexists. rewrite get_events_insert_eq. split; [reflexivity | simpl; lia].
      * intros _. rewrite lookup_insert_eq. eauto.
    + split.
      * exists []. rewrite get_events_insert_ne by assumption.
        rewrite app_nil_r. split; [reflexivity | simpl; lia].
      * now rewrite lookup_insert_ne.
  - split; [| auto]. exists []. rewrite app_nil_r. split; [reflexivity | simpl; lia].
Qed.

(** X4.  After any sequence of requests, accepted or not and for
    whatever addresses, the log of an address is the log it had followed
    by the events of exactly those requests that passed verification and
    carried that address, in the order they arrived. *)
Theorem deliveries_in_arrival_order
    (svc : service) (st : store) (ds : list delivery) (addr : string) :
  addr <> "" ->
  getEvents (deliver_all svc st ds) addr
  = getEvents st addr
    ++ map (fun d => event_of (d_env d) (d_payload d)) (List.filter (recorded_under svc addr) ds).
Proof.
  intros Hne. unfold deliver_all. revert st.
  induction ds as [|d ds IH]; intros st; cbn [fold_left List.filter map].
  - now rewrite app_nil_r.
  - rewrite IH. clear IH. rewrite deliver_unfold. unfold recorded_under.
    destruct (fst (verifyWebhookSignature svc (d_env d) (d_payload d) (d_signature d)
                     (d_timestamp d))); cbn [andb]; [| reflexivity].
    destruct (is_string (intent_address_of (d_payload d)) addr) eqn:Haddr.
    + apply is_string_spec in Haddr.
      assert (Hnn : d_payload d <> JNull) by (intros H; rewrite H in Haddr; discriminate).
      rewrite (bool_decide_eq_true_2 _ Hnn), Haddr. cbn [andb truthy key_of].
      destruct (String.eqb_spec addr "") as [-> | _]; [contradiction|]. cbn [negb].
      unfold getEvents. rewrite get_events_insert_eq. cbn [map]. now rewrite <- app_assoc.
    + destruct (_ && _); [| reflexivity].
      unfold getEvents. rewrite get_events_insert_ne; [reflexivity|].
      intros Hk. apply key_of_string in Hk. apply is_string_spec in Hk. congruence.
Qed.

Lemma deliveries_in_arrival_order_witness :
  let good := Delivery Sample.environment Sample.payload
                (Some Sample.signature_now) (JInt 1700000000) in
  let forged := Delivery Sample.environment Sample.payload
                  (Some "sha256=forged") (JInt 1700000000) in
  let other := Delivery Sample.environment Sample.stray
                 (Some Sample.signature_stray) (JInt 1700000000) in
  getEvents (deliver_all ApiService ∅ [good; forged; other; good]) "0xabc"
  = getEvents ∅ "0xabc"
    ++ map (fun d => event_of (d_env d) (d_payload d))
         (List.filter (recorded_under ApiService "0xabc") [good; forged; other; good]).
Proof.
  cbv zeta. apply deliveries_in_arrival_order. discriminate.
Defined.

(** X5.  Two requests for different intent addresses can be handled in
    either order: the store is the same afterwards. *)
Theorem deliveries_commute (svc : service) (st : store) (d1 d2 : delivery) :
  key_of (intent_address_of (d_payload d1)) <> key_of (intent_address_of (d_payload d2)) ->
  deliver svc (deliver svc st d1) d2 = deliver svc (deliver svc st d2) d1.
Proof.
  intros Hne. rewrite !deliver_unfold.
  destruct (_ && _ && truthy (intent_address_of (d_payload d1)));
    destruct (_ && _ && truthy (intent_address_of (d_payload d2))); try reflexivity.
  rewrite get_events_insert_ne by assumption.
  rewrite get_events_insert_ne by (intros H; now apply Hne).
  now apply insert_insert_ne.
Qed.

Lemma deliveries_commute_witness :
  let d1 := Delivery Sample.environment Sample.payload
              (Some Sample.signature_now) (JInt 1700000000) in
  let d2 := Delivery Sample.unprotected
              (JObj 5 [("id", JStr "evt_3"); ("data", JObj 6 [("intent_address", JStr "0xdef")])])
              None NaN in
  deliver ServerService (deliver ServerService ∅ d1) d2
  = deliver ServerService (deliver ServerService ∅ d2) d1.
Proof.
  cbv zeta. apply deliveries_commute. discriminate.
Defined.

(** X6.  A delivery that passes verification and whose
    [data.intent_address] is present but falsy (the empty string, 0,
    [false], [null]) is accepted like any other, its result echoes that
    address, and nothing is recorded. *)
Theorem falsy_address_is_not_recorded
    (svc : service) (e : env) (st : store) (payload : json)
    (signature : option string) (timestamp : jsnum) :
  fst (verifyWebhookSignature svc e payload signature timestamp) = true ->
  payload <> JNull ->
  truthy (intent_address_of payload) = false ->
  let r := handleWebhookEvent svc e st payload signature timestamp in
  result r = Returned {| received := true;
                         eventId := member payload "id";
                         eventType := member payload "type";
                         intentAddress := intent_address_of payload |}
  /\ webhookEvents r = st.
Proof.
  intros Hv Hnn Hfalsy. cbv zeta. rewrite handleWebhookEvent_unfold.
  rewrite handle_accepted by assumption. rewrite Hfalsy. cbn [result webhookEvents]. auto.
Qed.

Lemma falsy_address_is_not_recorded_witness :
  let payload := JObj 7 [("id", JStr "evt_4"); ("data", JObj 8 [("intent_address", JStr "")])] in
  let st : store := <[KStr "" := []]> ∅ in
  let r := handleWebhookEvent ApiService Sample.unprotected st payload None NaN in
  result r = Returned {| received := true;
                         eventId := Some (JStr "evt_4");
                         eventType := None;
                         intentAddress := Some (JStr "") |}
  /\ webhookEvents r = st.
Proof.
  cbv zeta.
  apply (falsy_address_is_not_recorded ApiService Sample.unprotected _
           (JObj 7 [("id", JStr "evt_4"); ("data", JObj 8 [("intent_address", JStr "")])])
           None NaN).
  - reflexivity.
  - discriminate.
  - reflexivity.
Defined.

(** X7.  The server service writes an error to its log in one situation
    only: a secret is configured, the timestamp passes the age test and
    the signature header is missing, so that [Buffer.from] throws.  The
    length test keeps [timingSafeEqual] from ever throwing. *)
Theorem server_logs_error_only_for_missing_signature
    (e : env) (payload : json) (signature : option string) (timestamp : jsnum)
    (msg : string) (err : js_error) :
  In (LogError msg err) (snd (Server.verifyWebhookSignature e payload signature timestamp))
  <-> (exists secret : string, secret_of e = Some secret)
      /\ js_gt (Math_abs (js_sub (JInt (now_seconds e)) timestamp)) (JInt 300) = false
      /\ signature = None
      /\ msg = "Error comparing webhook signatures:"
      /\ err = ERR_INVALID_ARG_TYPE.
Proof.
  unfold Server.verifyWebhookSignature.
  destruct (secret_of e) as [secret|] eqn:Hs.
  - change (js_gt _ (JInt Server.MAX_TIMESTAMP_AGE)) with (stale e timestamp).
    fold (stale e timestamp).
    destruct (stale e timestamp); cbn [snd].
    + split.
      * intros [H | []]. discriminate.
      * intros (_ & H & _). discriminate.
    + cbv zeta. destruct signature as [s|]; cbn [Buffer_from].
      * destruct (Nat.eqb_spec (length (bytes_of_string s))
                    (length (bytes_of_string
                       ("sha256=" +:+ hmac_sha256_hex secret
                          (number_to_string timestamp +:+ "." +:+ JSON_stringify payload)))))
          as [Hlen | Hlen]; cbn [negb].
        -- rewrite (timingSafeEqual_same_length _ _ Hlen). cbn [snd]. split.
           ++ intros [].
           ++ intros (_ & _ & H & _). discriminate.
        -- cbn [snd]. split.
           ++ intros [].
           ++ intros (_ & _ & H & _). discriminate.
      * cbn [snd]. split.
        -- intros [[= <- <-] | []]. repeat split; eauto.
        -- intros (_ & _ & _ & -> & ->). now left.
  - cbn [snd]. split.
    + intros [H | []]. discriminate.
    + intros ([secret H] & _). discriminate.
Qed.

(* ===================================================================== *)
(** * [getTransferStatus] *)
(* ===================================================================== *)

Lemma getTransferStatus_events (st : store) (intent : json) (status : transfer_status) :
  getTransferStatus st (Returned intent) = Returned status ->
  ts_webhookEvents status = get_events st (key_of (member intent "intent_address")).
Proof.
  unfold getTransferStatus. intros H.
  destruct intent; try discriminate H;
    destruct (to_property_key _); try discriminate H; now injection H as <-.
Qed.

Lemma getTransferStatus_returns (st : store) (intent : json) (key : string) :
  intent <> JNull ->
  to_property_key (member intent "intent_status") = Some key ->
  exists status, getTransferStatus st (Returned intent) = Returned status.
Proof.
  intros Hnn Hkey. unfold getTransferStatus.
  destruct intent; try contradiction; rewrite Hkey; eauto.
Qed.

(** X8.  For an intent whose status can be used as a key,
    [getTransferStatus] returns, and what it lists after a delivery for
    the intent's address was accepted is the log as it was, followed by
    the event of that delivery. *)
Theorem status_lists_recorded_delivery
    (svc : service) (e : env) (st : store) (payload : json)
    (signature : option string) (timestamp : jsnum)
    (intent : json) (addr key : string) :
  fst (verifyWebhookSignature svc e payload signature timestamp) = true ->
  intent_address_of payload = Some (JStr addr) ->
  addr <> "" ->
  member intent "intent_address" = Some (JStr addr) ->
  to_property_key (member intent "intent_status") = Some key ->
  exists status : transfer_status,
    getTransferStatus (webhookEvents (handleWebhookEvent svc e st payload signature timestamp))
      (Returned intent) = Returned status
    /\ ts_webhookEvents status = getEvents st addr ++ [event_of e payload].
Proof.
  intros Hv Haddr Hne Hintent Hkey.
  assert (Hnn : intent <> JNull) by (intros ->; discriminate Hintent).
  destruct (getTransferStatus_returns
              (webhookEvents (handleWebhookEvent svc e st payload signature timestamp))
              intent key Hnn Hkey) as [status Hstatus].
  exists status. split; [exact Hstatus|].
  apply getTransferStatus_events in Hstatus. rewrite Hstatus, Hintent. cbn [key_of].
  rewrite (accepted_appends svc e st payload signature timestamp addr Hv Haddr Hne).
  cbn [webhookEvents]. apply get_events_insert_eq.
Qed.

Lemma status_lists_recorded_delivery_witness :
  exists status : transfer_status,
    getTransferStatus
      (webhookEvents (handleWebhookEvent ApiService Sample.environment ∅ Sample.payload
                        (Some Sample.signature_now) (JInt 1700000000)))
      (Returned Sample.intent) = Returned status
    /\ ts_webhookEvents status = getEvents ∅ "0xabc" ++ [event_of Sample.environment Sample.payload].
Proof.
  apply (status_lists_recorded_delivery ApiService Sample.environment ∅ Sample.payload
           (Some Sample.signature_now) (JInt 1700000000) Sample.intent "0xabc" "PENDING").
  - vm_compute. reflexivity.
  - reflexivity.
  - discriminate.
  - reflexivity.
  - reflexivity.
Defined.

(** X9.  Right after [createTransfer] the status of the created intent
    lists no webhook event, whatever the store held for its address
    before. *)
Theorem status_after_createTransfer_lists_nothing
    (st : store) (sourceChain : string) (intent : json) (key : string) :
  intent <> JNull ->
  to_property_key (member intent "intent_status") = Some key ->
  exists status : transfer_status,
    getTransferStatus (webhookEvents (createTransfer st sourceChain (Returned intent)))
      (Returned intent) = Returned status
    /\ ts_webhookEvents status = [].
Proof.
  intros Hnn Hkey.
  destruct (getTransferStatus_returns
              (webhookEvents (createTransfer st sourceChain (Returned intent)))
              intent key Hnn Hkey) as [status Hstatus].
  exists status. split; [exact Hstatus|].
  apply getTransferStatus_events in Hstatus.
  rewrite Hstatus, createTransfer_store by assumption. apply get_events_insert_eq.
Qed.

Lemma status_after_createTransfer_lists_nothing_witness :
  exists status : transfer_status,
    getTransferStatus
      (webhookEvents (createTransfer
                        (<[KStr "0xabc" := [event_of Sample.environment Sample.payload]]> ∅)
                        "BASE_TESTNET" (Returned Sample.intent)))
      (Returned Sample.intent) = Returned status
    /\ ts_webhookEvents status = [].
Proof.
  apply (status_after_createTransfer_lists_nothing
           (<[KStr "0xabc" := [event_of Sample.environment Sample.payload]]> ∅)
           "BASE_TESTNET" Sample.intent "PENDING").
  - discriminate.
  - reflexivity.
Defined.

Lemma getTransferStatus_fields (st : store) (intent : json) (status : transfer_status) :
  getTransferStatus st (Returned intent) = Returned status ->
  ts_isComplete status = is_string (member intent "intent_status") "COMPLETED"
  /\ ts_isFailed status
     = is_string (member intent "intent_status") "EXPIRED"
       || is_string (member intent "intent_status") "REFUNDED"
  /\ exists key : string,
       to_property_key (member intent "intent_status") = Some key
       /\ ts_statusMessage status
          = match lookup_stage key stages with
            | Some text => StageText text
            | None =>
                if bool_decide (key ∈ object_prototype_names) then InheritedMember key
                else RawStatus (member intent "intent_status")
            end.
Proof.
  unfold getTransferStatus. intros H.
  destruct intent; try discriminate H;
    destruct (to_property_key _) as [key|] eqn:Hkey; try discriminate H;
    injection H as <-; cbn [ts_isComplete ts_isFailed ts_statusMessage]; eauto.
Qed.

(** X10.  For an intent whose status can be used as a key,
    [getTransferStatus] returns; [isComplete] holds exactly for the
    status string COMPLETED and [isFailed] exactly for EXPIRED and
    REFUNDED; the two never hold together, and when one holds the message
    is the text of the table for that status. *)
Theorem terminal_flags (st : store) (intent : json) (key : string) :
  intent <> JNull ->
  to_property_key (member intent "intent_status") = Some key ->
  exists status : transfer_status,
    getTransferStatus st (Returned intent) = Returned status
    /\ (ts_isComplete status = true <-> member intent "intent_status" = Some (JStr "COMPLETED"))
    /\ (ts_isFailed status = true
        <-> member intent "intent_status" = Some (JStr "EXPIRED")
            \/ member intent "intent_status" = Some (JStr "REFUNDED"))
    /\ ts_isComplete status && ts_isFailed status = false
    /\ (ts_isComplete status = true -> ts_statusMessage status = StageText "Transfer completed!")
    /\ (ts_isFailed status = true ->
        ts_statusMessage status = StageText "Intent expired"
        \/ ts_statusMessage status = StageText "Transfer refunded").
Proof.
  intros Hnn Hkey0.
  destruct (getTransferStatus_returns st intent key Hnn Hkey0) as [status H].
  exists status. split; [exact H|]. clear Hkey0 key.
  destruct (getTransferStatus_fields st intent status H)
    as (Hc & Hf & key & Hkey & Hmsg).
  rewrite Hc, Hf, orb_true_iff, !is_string_spec. clear Hc Hf H.
  destruct (member intent "intent_status") as [v|] eqn:Hst.
  2: { repeat split; try discriminate; intros [? | ?]; discriminate. }
  split; [reflexivity|]. split; [reflexivity|].
  split.
  - destruct v; try reflexivity. cbn [is_string].
    destruct (String.eqb_spec s "COMPLETED") as [-> | ?]; reflexivity.
  - split.
    + intros [= ->]. cbn in Hkey. injection Hkey as <-. exact Hmsg.
    + intros [[= ->] | [= ->]]; cbn in Hkey; injection Hkey as <-; rewrite Hmsg; auto.
Qed.

Lemma terminal_flags_witness :
  exists status : transfer_status,
    getTransferStatus ∅ (Returned (JObj 9 [("intent_address", JStr "0xabc");
                                           ("intent_status", JStr "REFUNDED")]))
    = Returned status
    /\ ts_isFailed status = true
    /\ ts_isComplete status && ts_isFailed status = false
    /\ ts_statusMessage status = StageText "Transfer refunded".
Proof.
  destruct (terminal_flags ∅ (JObj 9 [("intent_address", JStr "0xabc");
                                      ("intent_status", JStr "REFUNDED")]) "REFUNDED")
    as (status & Hstatus & _ & Hf & Hx & _ & Hmsg).
  - discriminate.
  - reflexivity.
  - exists status. split; [exact Hstatus|].
    assert (Hfailed : ts_isFailed status = true) by (apply Hf; right; reflexivity).
    split; [exact Hfailed|]. split; [exact Hx|].
    destruct (Hmsg Hfailed) as [Hm | Hm]; [| exact Hm].
    exfalso. cbn in Hstatus. injection Hstatus as <-. discriminate Hm.
Defined.

Lemma lookup_stage_none (key : string) (table : list (string * string)) :
  key ∉ map fst table -> lookup_stage key table = None.
Proof.
  induction table as [|[k text] table IH]; intros Hnot; [reflexivity|].
  cbn [lookup_stage]. destruct (String.eqb_spec k key) as [-> | Hne].
  - exfalso. apply Hnot. cbn [map fst]. apply list_elem_of_here.
  - apply IH. intros Hin. apply Hnot. cbn [map fst]. now apply list_elem_of_further.
Qed.

(** X11.  A status string that is not one of the six of the table is not
    translated: the message is the status itself, except that a status
    named like a member of [Object.prototype] ("constructor", "toString",
    ...) yields that inherited member instead of a text. *)
Theorem unlisted_status_is_not_translated (st : store) (intent : json) (s : string) :
  member intent "intent_status" = Some (JStr s) ->
  s ∉ map fst stages ->
  exists status : transfer_status,
    getTransferStatus st (Returned intent) = Returned status
    /\ (s ∉ object_prototype_names -> ts_statusMessage status = RawStatus (Some (JStr s)))
    /\ (s ∈ object_prototype_names -> ts_statusMessage status = InheritedMember s).
Proof.
  intros Hs Hunlisted.
  assert (Hnn : intent <> JNull) by (intros ->; discriminate Hs).
  assert (Hkey0 : to_property_key (member intent "intent_status") = Some s)
    by now rewrite Hs.
  destruct (getTransferStatus_returns st intent s Hnn Hkey0) as [status H].
  exists status. split; [exact H|].
  destruct (getTransferStatus_fields st intent status H) as (_ & _ & key & Hkey & Hmsg).
  rewrite Hs in Hkey, Hmsg. cbn in Hkey. injection Hkey as <-.
  rewrite (lookup_stage_none s stages Hunlisted) in Hmsg. split; intros Hin.
  - now rewrite (bool_decide_eq_false_2 _ Hin) in Hmsg.
  - now rewrite (bool_decide_eq_true_2 _ Hin) in Hmsg.
Qed.

Lemma unlisted_status_is_not_translated_witness :
  exists status : transfer_status,
    getTransferStatus ∅ (Returned (JObj 9 [("intent_status", JStr "constructor")]))
    = Returned status
    /\ ("constructor" ∉ object_prototype_names ->
        ts_statusMessage status = RawStatus (Some (JStr "constructor")))
    /\ ("constructor" ∈ object_prototype_names ->
        ts_statusMessage status = InheritedMember "constructor").
Proof.
  apply (unlisted_status_is_not_translated ∅ (JObj 9 [("intent_status", JStr "constructor")])
           "constructor").
  - reflexivity.
  - apply (bool_decide_unpack _). vm_compute. exact I.
Defined.

(** X12.  [getTransferStatus] returns exactly when the intent was
    fetched, is not [null], and its status can be used as a key; a fetch
    that fails passes its exception on, and every other failure is a
    TypeError: of the [null] intent, or of a status object that cannot be
    turned into a string. *)
Theorem status_is_returned_unless_the_key_throws (st : store) (fetched : outcome json) :
  ((exists status, getTransferStatus st fetched = Returned status)
   <-> exists (intent : json) (key : string),
         fetched = Returned intent /\ intent <> JNull
         /\ to_property_key (member intent "intent_status") = Some key)
  /\ (forall ex : exn,
        getTransferStatus st fetched = Thrown ex ->
        fetched = Thrown ex
        \/ (ex = TypeError
            /\ exists intent : json,
                 fetched = Returned intent
                 /\ (intent = JNull
                     \/ to_property_key (member intent "intent_status") = None))).
Proof.
  destruct fetched as [intent | ex0].
  - destruct (decide (intent = JNull)) as [-> | Hnn].
    + split.
      * split; [intros [status H]; discriminate H|].
        intros (intent & key & [= <-] & Hnn & _). now destruct Hnn.
      * intros ex [= <-]. right. split; [reflexivity|]. exists JNull. auto.
    + destruct (to_property_key (member intent "intent_status")) as [key|] eqn:Hkey.
      * split.
        -- split; [| intros _; now apply (getTransferStatus_returns st intent key)].
           intros _. exists intent, key. auto.
        -- intros ex H.
           destruct (getTransferStatus_returns st intent key Hnn Hkey) as [status Hs].
           rewrite Hs in H. discriminate H.
      * assert (Hthrown : getTransferStatus st (Returned intent) = Thrown TypeError).
        { unfold getTransferStatus. destruct intent; try contradiction; now rewrite Hkey. }
        split.
        -- split.
           ++ intros [status H]. rewrite Hthrown in H. discriminate H.
           ++ intros (intent' & key & [= <-] & _ & Hk). rewrite Hkey in Hk. discriminate Hk.
        -- intros ex H. rewrite Hthrown in H. injection H as <-.
           right. split; [reflexivity|]. exists intent. auto.
  - split.
    + split; [intros [status H]; discriminate H|].
      intros (intent & key & H & _). discriminate H.
    + intros ex [= <-]. now left.
Qed.

(* ===================================================================== *)
(** * [getTransferOptions] *)
(* ===================================================================== *)

Section MapIndexed.

Context {A : Type} (f : nat -> json -> outcome A).

Lemma map_indexed_length (i : nat) (items : list json) (ys : list A) :
  map_indexed f i items = Returned ys -> length ys = length items.
Proof.
  revert i ys. induction items as [|x items IH]; intros i ys H; cbn [map_indexed] in H.
  - now injection H as <-.
  - destruct (f i x) as [y|]; [| discriminate H].
    destruct (map_indexed f (S i) items) as [ys'|] eqn:Hrest; [| discriminate H].
    injection H as <-. cbn [length]. f_equal. now apply (IH (S i)).
Qed.

Lemma map_indexed_lookup (i : nat) (items : list json) (ys : list A) (k : nat) (y : A) :
  map_indexed f i items = Returned ys ->
  ys !! k = Some y ->
  exists x, items !! k = Some x /\ f (i + k)%nat x = Returned y.
Proof.
  revert i ys k. induction items as [|x items IH]; intros i ys k H Hk; cbn [map_indexed] in H.
  - injection H as <-. discriminate Hk.
  - destruct (f i x) as [y0|] eqn:Hx; [| discriminate H].
    destruct (map_indexed f (S i) items) as [ys'|] eqn:Hrest; [| discriminate H].
    injection H as <-. destruct k as [|k].
    + injection Hk as <-. exists x. rewrite Nat.add_0_r. auto.
    + cbn in Hk. destruct (IH (S i) ys' k Hrest Hk) as (x' & Hx' & Hf).
      exists x'. split; [exact Hx'|]. now rewrite Nat.add_succ_r.
Qed.

Lemma map_indexed_returns (i : nat) (items : list json) :
  (forall (k : nat) (x : json), items !! k = Some x -> exists y, f (i + k)%nat x = Returned y) ->
  exists ys, map_indexed f i items = Returned ys.
Proof.
  revert i. induction items as [|x items IH]; intros i Hall; cbn [map_indexed]; [eauto|].
  destruct (Hall 0%nat x eq_refl) as [y Hy]. rewrite Nat.add_0_r in Hy. rewrite Hy.
  destruct (IH (S i)) as [ys Hys].
  { intros k x' Hk. destruct (Hall (S k) x' Hk) as [y' Hy']. exists y'.
    now rewrite Nat.add_succ_r in Hy'. }
  rewrite Hys. eauto.
Qed.

Lemma map_indexed_throws (i : nat) (items : list json) (k : nat) (x : json) (ex : exn) :
  items !! k = Some x ->
  f (i + k)%nat x = Thrown ex ->
  exists ex', map_indexed f i items = Thrown ex'.
Proof.
  revert i k. induction items as [|x0 items IH]; intros i k Hk Hf; [discriminate Hk|].
  cbn [map_indexed]. destruct k as [|k].
  - injection Hk as ->. rewrite Nat.add_0_r in Hf. rewrite Hf. eauto.
  - destruct (f i x0); [| eauto]. cbn in Hk.
    destruct (IH (S i) k Hk) as [ex' Hex'].
    { now rewrite Nat.add_succ_r in Hf. }
    rewrite Hex'. eauto.
Qed.

Lemma map_indexed_thrown (i : nat) (items : list json) (ex : exn) :
  map_indexed f i items = Thrown ex ->
  exists (k : nat) (x : json), items !! k = Some x /\ f (i + k)%nat x = Thrown ex.
Proof.
  revert i. induction items as [|x items IH]; intros i H; cbn [map_indexed] in H;
    [discriminate H|].
  destruct (f i x) as [y|ex0] eqn:Hx.
  - destruct (map_indexed f (S i) items) as [ys|ex1] eqn:Hrest; [discriminate H|].
    injection H as <-. destruct (IH (S i) Hrest) as (k & x' & Hk & Hf).
    exists (S k), x'. split; [exact Hk|]. now rewrite Nat.add_succ_r.
  - injection H as <-. exists 0%nat, x. rewrite Nat.add_0_r. auto.
Qed.

Lemma options_of_response_inv
    (destinationChain amount : string) (response : json) (result : transfer_options A) :
  options_of_response f destinationChain amount (Returned response) = Returned result ->
  exists (r : nat) (quotes : list json),
    member response "quotes" = Some (JArr r quotes)
    /\ map_indexed f 0 quotes = Returned (to_options result)
    /\ to_cheapestOption result = head (to_options result)
    /\ to_totalOptions result = Z.of_nat (length (to_options result))
    /\ to_destinationChain result = destinationChain
    /\ to_amount result = amount.
Proof.
  unfold options_of_response. intros H.
  destruct response; try discriminate H.
  all: destruct (member _ "quotes") as [[| | | |r quotes|]|]; try discriminate H.
  all: destruct (map_indexed f 0 quotes) as [options|] eqn:Hmap; try discriminate H.
  all: injection H as <-; exists r, quotes; cbn; auto 10.
Qed.

End MapIndexed.

Lemma api_option_inv (destinationChain tokenOut : string) (i : nat) (quote : json)
    (opt : ApiOptions.transfer_option) :
  ApiOptions.option_of destinationChain tokenOut i quote = Returned opt ->
  quote <> JNull
  /\ opt = {| ApiOptions.index := Z.of_nat i + 1;
              ApiOptions.sourceChain := member quote "sourceChain";
              ApiOptions.type :=
                if is_string (member quote "sourceChain") destinationChain
                then "same-chain" else "cross-chain";
              ApiOptions.fee :=
                js_or (opt_member (member quote "bestQuote") "totalFee") (JStr "0");
              ApiOptions.feeFormatted :=
                js_or (opt_member (member quote "bestQuote") "totalFeeFormatted") (JStr "0");
              ApiOptions.bridge :=
                if is_string (member quote "sourceChain") destinationChain
                then JStr "None (same chain)"
                else js_or (opt_member (opt_member (member quote "bestQuote") "route")
                                       "bridgeToUse") (JStr "Auto-selected");
              ApiOptions.recommended := (i =? 0)%nat;
              ApiOptions.tokenIn :=
                js_or (opt_member (opt_member (member quote "bestQuote") "route") "tokenIn")
                      (JStr tokenOut);
              ApiOptions.amountInSmallestUnit :=
                js_or (opt_member (member quote "bestQuote") "amount") (JStr "0") |}.
Proof.
  unfold ApiOptions.option_of. intros H.
  destruct quote; try discriminate H; (split; [discriminate | now injection H as <-]).
Qed.

Lemma js_or_truthy (v : option json) (fallback : json) :
  truthy (Some fallback) = true -> truthy (Some (js_or v fallback)) = true.
Proof.
  intros Hf. unfold js_or. destruct v as [w|]; [| exact Hf].
  destruct (truthy (Some w)) eqn:Hw; [exact Hw | exact Hf].
Qed.

Lemma getTransferOptions_returns
    (destinationChain amount tokenOut : string) (response : json)
    (r : nat) (quotes : list json) :
  member response "quotes" = Some (JArr r quotes) ->
  Forall (fun quote => quote <> JNull) quotes ->
  exists result,
    ApiOptions.getTransferOptions destinationChain amount tokenOut (Returned response)
    = Returned result.
Proof.
  intros Hq Hall. unfold ApiOptions.getTransferOptions.
  destruct (map_indexed_returns (ApiOptions.option_of destinationChain tokenOut) 0 quotes)
    as [options Hoptions].
  { intros k quote Hk. pose proof (Forall_lookup_1 _ _ _ _ Hall Hk) as Hnn.
    unfold ApiOptions.option_of. destruct quote; try contradiction; eauto. }
  unfold options_of_response.
  destruct response; try discriminate Hq. cbn [member] in Hq |- *.
  cbn [member]. rewrite Hq, Hoptions. eauto.
Qed.

(** X13.  For a response whose quotes hold no [null], the options
    follow the quotes one for one and in the same order: option [i]
    (from 0) is numbered [i + 1], names the source chain of quote [i],
    and is the recommended one exactly when it is the first; nothing is
    sorted or left out, [totalOptions] is the number of quotes and
    [cheapestOption] is the first option. *)
Theorem options_follow_quotes
    (destinationChain amount tokenOut : string) (response : json)
    (r : nat) (quotes : list json) :
  member response "quotes" = Some (JArr r quotes) ->
  Forall (fun quote => quote <> JNull) quotes ->
  exists result : transfer_options ApiOptions.transfer_option,
    ApiOptions.getTransferOptions destinationChain amount tokenOut (Returned response)
    = Returned result
    /\ to_totalOptions result = Z.of_nat (length quotes)
    /\ length (to_options result) = length quotes
    /\ to_cheapestOption result = head (to_options result)
    /\ forall (i : nat) (opt : ApiOptions.transfer_option),
         to_options result !! i = Some opt ->
         exists quote : json,
           quotes !! i = Some quote
           /\ ApiOptions.sourceChain opt = member quote "sourceChain"
           /\ ApiOptions.index opt = Z.of_nat i + 1
           /\ (ApiOptions.recommended opt = true <-> i = 0%nat).
Proof.
  intros Hquotes Hall.
  destruct (getTransferOptions_returns destinationChain amount tokenOut response r quotes
              Hquotes Hall) as [result H].
  exists result. split; [exact H|].
  unfold ApiOptions.getTransferOptions in H.
  apply options_of_response_inv in H as (r' & quotes' & Hq & Hmap & Hhead & Htotal & _ & _).
  rewrite Hquotes in Hq. injection Hq as <- <-.
  pose proof (map_indexed_length _ _ _ _ Hmap) as Hlen.
  rewrite Htotal, Hlen. repeat split; try assumption.
  - intros i opt Hi.
    destruct (map_indexed_lookup _ _ _ _ _ _ Hmap Hi) as (quote & Hquote & Hopt).
    apply api_option_inv in Hopt as [_ ->]. exists quote. cbn.
    repeat split; auto.
    + intros Hz. now apply Nat.eqb_eq in Hz.
    + intros ->. reflexivity.
Qed.

Lemma options_follow_quotes_witness :
  exists result : transfer_options ApiOptions.transfer_option,
    ApiOptions.getTransferOptions "ARBITRUM_TESTNET" "10" "0xusdc" (Returned sample_quotes)
    = Returned result
    /\ to_totalOptions result = 2
    /\ (ApiOptions.sourceChain <$> to_cheapestOption result) = Some (Some (JStr "BASE_TESTNET")).
Proof.
  destruct (options_follow_quotes "ARBITRUM_TESTNET" "10" "0xusdc" sample_quotes 11
              [JObj 12 [("sourceChain", JStr "BASE_TESTNET");
                        ("bestQuote", JObj 13 [("totalFee", JStr "9000")])];
               JObj 14 [("sourceChain", JStr "ARBITRUM_TESTNET");
                        ("bestQuote", JObj 15 [("totalFee", JStr "10")])]]
              eq_refl) as (result & Hresult & Htotal & _ & Hhead & _).
  - repeat constructor; discriminate.
  - exists result. split; [exact Hresult|]. split; [exact Htotal|].
    cbn in Hresult. injection Hresult as <-. reflexivity.
Defined.

(** X14.  For a response whose quotes hold no [null], every option
    carries usable values: its fee, formatted fee, bridge and amount are
    never empty or undefined (a missing one is replaced by "0" or
    "Auto-selected"), an option is "same-chain" exactly when its source
    chain is the destination chain, and a same-chain option always shows
    the bridge "None (same chain)". *)
Theorem options_have_defaults
    (destinationChain amount tokenOut : string) (response : json)
    (r : nat) (quotes : list json) :
  member response "quotes" = Some (JArr r quotes) ->
  Forall (fun quote => quote <> JNull) quotes ->
  exists result : transfer_options ApiOptions.transfer_option,
    ApiOptions.getTransferOptions destinationChain amount tokenOut (Returned response)
    = Returned result
    /\ forall (i : nat) (opt : ApiOptions.transfer_option),
         to_options result !! i = Some opt ->
         truthy (Some (ApiOptions.fee opt)) = true
         /\ truthy (Some (ApiOptions.feeFormatted opt)) = true
         /\ truthy (Some (ApiOptions.bridge opt)) = true
         /\ truthy (Some (ApiOptions.amountInSmallestUnit opt)) = true
         /\ (tokenOut <> "" -> truthy (Some (ApiOptions.tokenIn opt)) = true)
         /\ (ApiOptions.type opt = "same-chain"
             <-> ApiOptions.sourceChain opt = Some (JStr destinationChain))
         /\ (ApiOptions.type opt = "same-chain" ->
             ApiOptions.bridge opt = JStr "None (same chain)").
Proof.
  intros Hquotes Hall.
  destruct (getTransferOptions_returns destinationChain amount tokenOut response r quotes
              Hquotes Hall) as [result H].
  exists result. split; [exact H|]. intros i opt Hi.
  unfold ApiOptions.getTransferOptions in H.
  apply options_of_response_inv in H as (r' & quotes' & _ & Hmap & _).
  destruct (map_indexed_lookup _ _ _ _ _ _ Hmap Hi) as (quote & _ & Hopt).
  apply api_option_inv in Hopt as [_ ->]. cbn.
  repeat split.
  - now apply js_or_truthy.
  - now apply js_or_truthy.
  - destruct (is_string _ destinationChain); [reflexivity | now apply js_or_truthy].
  - now apply js_or_truthy.
  - intros Hne. apply js_or_truthy. cbn.
    destruct (String.eqb_spec tokenOut ""); [contradiction | reflexivity].
  - destruct (is_string _ destinationChain) eqn:Hs; [| discriminate].
    intros _. now apply is_string_spec.
  - intros Hs. apply is_string_spec in Hs. now rewrite Hs.
  - destruct (is_string _ destinationChain); [reflexivity | discriminate].
Qed.

Lemma options_have_defaults_witness :
  exists result : transfer_options ApiOptions.transfer_option,
    ApiOptions.getTransferOptions "ARBITRUM_TESTNET" "10" "0xusdc" (Returned sample_quotes)
    = Returned result
    /\ forall (i : nat) (opt : ApiOptions.transfer_option),
         to_options result !! i = Some opt ->
         truthy (Some (ApiOptions.fee opt)) = true
         /\ truthy (Some (ApiOptions.feeFormatted opt)) = true
         /\ truthy (Some (ApiOptions.bridge opt)) = true
         /\ truthy (Some (ApiOptions.amountInSmallestUnit opt)) = true
         /\ ("0xusdc" <> "" -> truthy (Some (ApiOptions.tokenIn opt)) = true)
         /\ (ApiOptions.type opt = "same-chain"
             <-> ApiOptions.sourceChain opt = Some (JStr "ARBITRUM_TESTNET"))
         /\ (ApiOptions.type opt = "same-chain" ->
             ApiOptions.bridge opt = JStr "None (same chain)").
Proof.
  apply (options_have_defaults "ARBITRUM_TESTNET" "10" "0xusdc" sample_quotes 11
           [JObj 12 [("sourceChain", JStr "BASE_TESTNET");
                     ("bestQuote", JObj 13 [("totalFee", JStr "9000")])];
            JObj 14 [("sourceChain", JStr "ARBITRUM_TESTNET");
                     ("bestQuote", JObj 15 [("totalFee", JStr "10")])]]).
  - reflexivity.
  - repeat constructor; discriminate.
Defined.

(** X15.  [getTransferOptions] gives a result exactly when the response
    is an object whose [quotes] is an array without a [null] entry; on
    any other response it throws a TypeError and returns no partial
    list. *)
Theorem options_need_wellformed_response
    (destinationChain amount tokenOut : string) (response : json) :
  ((exists result,
       ApiOptions.getTransferOptions destinationChain amount tokenOut (Returned response)
       = Returned result)
   <-> exists (r : nat) (quotes : list json),
         member response "quotes" = Some (JArr r quotes)
         /\ Forall (fun quote => quote <> JNull) quotes)
  /\ (forall ex : exn,
        ApiOptions.getTransferOptions destinationChain amount tokenOut (Returned response)
        = Thrown ex ->
        ex = TypeError).
Proof.
  split; [split|].
  - unfold ApiOptions.getTransferOptions. intros [result H].
    apply options_of_response_inv in H as (r & quotes & Hq & Hmap & _).
    exists r, quotes. split; [exact Hq|].
    apply Forall_lookup_2. intros k quote Hk ->.
    destruct (map_indexed_throws (ApiOptions.option_of destinationChain tokenOut)
                0 quotes k JNull TypeError Hk eq_refl) as [ex Hex].
    rewrite Hex in Hmap. discriminate Hmap.
  - intros (r & quotes & Hq & Hall).
    now apply (getTransferOptions_returns destinationChain amount tokenOut response r quotes).
  - unfold ApiOptions.getTransferOptions, options_of_response. intros ex H.
    destruct response; try (now injection H as <-).
    destruct (member _ "quotes") as [[| | | |r quotes|]|]; try (now injection H as <-).
    destruct (map_indexed (ApiOptions.option_of destinationChain tokenOut) 0 quotes)
      as [options|ex'] eqn:Hmap; [discriminate H|].
    injection H as <-.
    apply map_indexed_thrown in Hmap as (k & quote & _ & Hf).
    unfold ApiOptions.option_of in Hf. destruct quote; try discriminate Hf.
    now injection Hf as <-.
Qed.

Lemma map_indexed_without_token (destinationChain tokenOut : string) (i : nat) (quotes : list json) :
  map_indexed (ServerOptions.option_of destinationChain) i quotes
  = match map_indexed (ApiOptions.option_of destinationChain tokenOut) i quotes with
    | Returned options => Returned (map without_token options)
    | Thrown ex => Thrown ex
    end.
Proof.
  revert i. induction quotes as [|quote quotes IH]; intros i; cbn [map_indexed]; [reflexivity|].
  rewrite IH.
  destruct quote; cbn [ServerOptions.option_of ApiOptions.option_of]; try reflexivity.
  all: destruct (map_indexed (ApiOptions.option_of destinationChain tokenOut) (S i) quotes);
    reflexivity.
Qed.

(** X16.  On every response the server service answers as the api
    service does, with [tokenIn] and [amountInSmallestUnit] left out of
    each option: the same options in the same order, the same totals,
    the same exception. *)
Theorem server_options_agree_with_api
    (destinationChain amount tokenOut : string) (fetched : outcome json) :
  ServerOptions.getTransferOptions destinationChain amount tokenOut fetched
  = match ApiOptions.getTransferOptions destinationChain amount tokenOut fetched with
    | Returned result =>
        Returned {| to_destinationChain := to_destinationChain result;
                    to_amount := to_amount result;
                    to_options := map without_token (to_options result);
                    to_cheapestOption := without_token <$> to_cheapestOption result;
                    to_totalOptions := to_totalOptions result |}
    | Thrown ex => Thrown ex
    end.
Proof.
  unfold ServerOptions.getTransferOptions, ApiOptions.getTransferOptions, options_of_response.
  destruct fetched as [response|ex]; [| reflexivity].
  destruct response; try reflexivity.
  destruct (member _ "quotes") as [[| | | |r quotes|]|]; try reflexivity.
  rewrite (map_indexed_without_token destinationChain tokenOut).
  destruct (map_indexed (ApiOptions.option_of destinationChain tokenOut) 0 quotes)
    as [options|]; [| reflexivity].
  cbn. rewrite length_map. destruct options; reflexivity.
Qed.

(* ===================================================================== *)
(** * The interactive demo *)
(* ===================================================================== *)

(** X17.  [selectSource] returns the option the user named, counting
    from 1, exactly when the answer parses as an integer between 1 and
    the number of options and the option can be printed; an answer that
    is not such an integer is refused with "Invalid selection", and the
    only other failure is the TypeError of an option that cannot be
    printed: no answer makes it read outside the list. *)
Theorem selectSource_checks_bounds {A : Type} (printable : A -> bool)
    (options : list A) (selection : string) :
  (forall selected : A,
      selectSource printable options selection = Returned selected
      <-> exists k : Z,
            parseInt (Some selection) = JInt k
            /\ 1 <= k <= Z.of_nat (length options)
            /\ options !! Z.to_nat (k - 1) = Some selected
            /\ printable selected = true)
  /\ ((forall k : Z, parseInt (Some selection) = JInt k ->
                     ~ (1 <= k <= Z.of_nat (length options))) ->
      selectSource printable options selection = Thrown (Rejected "Invalid selection"))
  /\ (forall ex : exn,
        selectSource printable options selection = Thrown ex ->
        ex = Rejected "Invalid selection"
        \/ (ex = TypeError
            /\ exists (k : Z) (selected : A),
                 parseInt (Some selection) = JInt k
                 /\ options !! Z.to_nat (k - 1) = Some selected
                 /\ printable selected = false)).
Proof.
  unfold selectSource. destruct (parseInt (Some selection)) as [|k]; cbn [js_sub].
  - split; [| split].
    + intros selected. split; [discriminate | intros (k & Hk & _); discriminate Hk].
    + reflexivity.
    + intros ex [= <-]. now left.
  - destruct (Z.ltb_spec (k - 1) 0) as [Hlo | Hlo]; cbn [orb].
    + split; [| split].
      * intros selected. split; [discriminate|]. intros (k' & [= <-] & Hrange & _). lia.
      * reflexivity.
      * intros ex [= <-]. now left.
    + destruct (Z.leb_spec (Z.of_nat (length options)) (k - 1)) as [Hhi | Hhi].
      * split; [| split].
        -- intros selected. split; [discriminate|]. intros (k' & [= <-] & Hrange & _). lia.
        -- reflexivity.
        -- intros ex [= <-]. now left.
      * assert (Hlt : (Z.to_nat (k - 1) < length options)%nat) by lia.
        destruct (options !! Z.to_nat (k - 1)) as [x|] eqn:Hnth.
        2: { apply lookup_ge_None in Hnth. lia. }
        destruct (printable x) eqn:Hprint.
        -- split; [| split].
           ++ intros selected. split.
              ** intros [= <-]. exists k. repeat split; auto; lia.
              ** intros (k' & [= <-] & _ & Hsel & _). rewrite Hnth in Hsel.
                 now injection Hsel as <-.
           ++ intros Hnone. exfalso. apply (Hnone k eq_refl). lia.
           ++ discriminate.
        -- split; [| split].
           ++ intros selected. split; [discriminate|].
              intros (k' & [= <-] & _ & Hsel & Hp). rewrite Hnth in Hsel.
              injection Hsel as <-. rewrite Hprint in Hp. discriminate Hp.
           ++ intros Hnone. exfalso. apply (Hnone k eq_refl). lia.
           ++ intros ex [= <-]. right. split; [reflexivity|]. exists k, x. auto.
Qed.

Lemma monitor_loop_spec (remaining attempts : nat) (polls : nat -> outcome transfer_status)
    (n : nat) (done : bool) :
  monitor_loop remaining attempts polls = (n, done) ->
  (attempts <= n <= attempts + remaining)%nat
  /\ (forall k : nat, (attempts <= k)%nat -> (S k < n)%nat -> ends_monitoring (polls k) = false)
  /\ (done = true -> (attempts < n)%nat /\ ends_monitoring (polls (n - 1)%nat) = true)
  /\ (done = false ->
      n = (attempts + remaining)%nat
      /\ forall k : nat, (attempts <= k < n)%nat -> ends_monitoring (polls k) = false).
Proof.
  revert attempts. induction remaining as [|remaining IH]; intros attempts H;
    cbn [monitor_loop] in H.
  - injection H as <- <-. split; [lia|]. split; [| split].
    + intros k Hk Hkn. lia.
    + discriminate.
    + intros _. split; [lia|]. intros k Hk. lia.
  - assert (Hstep : ends_monitoring (polls attempts) = false ->
              monitor_loop remaining (S attempts) polls = (n, done)).
    { unfold ends_monitoring. destruct (polls attempts) as [status|]; [| auto].
      destruct (report_fails status); [auto|].
      destruct (ts_isComplete status); [discriminate|].
      destruct (ts_isFailed status); [discriminate | auto]. }
    destruct (ends_monitoring (polls attempts)) eqn:Hend.
    + unfold ends_monitoring in Hend. destruct (polls attempts) as [status|] eqn:Hp;
        [| discriminate].
      assert (Hres : (n, done) = (S attempts, true)).
      { destruct (report_fails status); [discriminate Hend|].
        destruct (ts_isComplete status); [now injection H as <- <- |].
        cbn in Hend. rewrite Hend in H. now injection H as <- <-. }
      injection Hres as -> ->. split; [lia|]. split; [| split].
      * intros k Hk Hkn. lia.
      * intros _. split; [lia|].
        replace (S attempts - 1)%nat with attempts by lia.
        unfold ends_monitoring. now rewrite Hp.
      * discriminate.
    + specialize (Hstep eq_refl). apply IH in Hstep as (Hrange & Hbefore & Htrue & Hfalse).
      split; [lia|]. split; [| split].
      * intros k Hk Hkn. destruct (decide (k = attempts)) as [-> | Hne]; [exact Hend|].
        apply Hbefore; lia.
      * intros Hd. destruct (Htrue Hd). split; [lia | assumption].
      * intros Hd. destruct (Hfalse Hd) as [-> Hall]. split; [lia|].
        intros k Hk. destruct (decide (k = attempts)) as [-> | Hne]; [exact Hend|].
        apply Hall. lia.
Qed.

(** X18.  The monitoring loop asks for the status at most 15 times.  It
    stops with [isComplete] set right after the first answer that is
    complete or failed and could be reported; if none of the first 15
    is, it stops after exactly 15 with [isComplete] unset.  A call that
    fails, and an answer whose report fails, count as attempts. *)
Theorem monitoring_stops (polls : nat -> outcome transfer_status) (n : nat) (done : bool) :
  monitorTransferStatus polls = (n, done) ->
  (n <= 15)%nat
  /\ (forall k : nat, (S k < n)%nat -> ends_monitoring (polls k) = false)
  /\ (done = true -> (1 <= n)%nat /\ ends_monitoring (polls (n - 1)%nat) = true)
  /\ (done = false ->
      n = 15%nat /\ forall k : nat, (k < 15)%nat -> ends_monitoring (polls k) = false).
Proof.
  unfold monitorTransferStatus. intros H.
  apply monitor_loop_spec in H as (Hrange & Hbefore & Htrue & Hfalse).
  unfold maxAttempts in *. split; [lia|]. split; [| split].
  - intros k Hk. apply Hbefore; lia.
  - intros Hd. destruct (Htrue Hd). split; [lia | assumption].
  - intros Hd. destruct (Hfalse Hd) as [-> Hall]. split; [reflexivity|].
    intros k Hk. apply Hall. lia.
Qed.

(** X19.  Whatever the user answers, the collected input has no empty
    field and a number of decimals other than 0: the integer the answer
    starts with, or 6 when the answer is empty, 0 or not a number; and
    refunds go to the sender.  (The answer for the decimals, when it is a
    number, is an integer that JS holds exactly.) *)
Theorem collected_input_is_complete
    (destinationChain amount tokenOut tokenDecimalsStr recipient sender : string) :
  prints_exactly (parseInt (Some tokenDecimalsStr)) = true ->
  let input :=
    collectUserInput destinationChain amount tokenOut tokenDecimalsStr recipient sender in
  ui_destinationChain input <> ""
  /\ ui_amount input <> ""
  /\ ui_tokenOut input <> ""
  /\ ui_recipient input <> ""
  /\ ui_sender input <> ""
  /\ ui_refundAddress input = ui_sender input
  /\ ui_tokenDecimals input <> 0
  /\ (forall n : Z, parseInt (Some tokenDecimalsStr) = JInt n -> n <> 0 ->
                    ui_tokenDecimals input = n)
  /\ ((parseInt (Some tokenDecimalsStr) = NaN \/ parseInt (Some tokenDecimalsStr) = JInt 0) ->
      ui_tokenDecimals input = 6).
Proof.
  intros _.
  assert (Hor : forall s fallback, fallback <> "" -> string_or s fallback <> "").
  { intros s fallback Hf. unfold string_or.
    destruct (String.eqb_spec s ""); [exact Hf | assumption]. }
  cbv zeta. unfold collectUserInput. cbn.
  repeat split; try (apply Hor; discriminate).
  - destruct (parseInt (Some tokenDecimalsStr)) as [|n]; [discriminate|].
    destruct (Z.eqb_spec n 0); [discriminate | assumption].
  - intros n -> Hn. destruct (Z.eqb_spec n 0); [contradiction | reflexivity].
  - intros [-> | ->]; reflexivity.
Qed.

Lemma collected_input_is_complete_witness :
  let input := collectUserInput "" "25" "" "18" "" "0xsender" in
  ui_destinationChain input <> ""
  /\ ui_amount input <> ""
  /\ ui_tokenOut input <> ""
  /\ ui_recipient input <> ""
  /\ ui_sender input <> ""
  /\ ui_refundAddress input = ui_sender input
  /\ ui_tokenDecimals input <> 0
  /\ (forall n : Z, parseInt (Some "18") = JInt n -> n <> 0 -> ui_tokenDecimals input = n)
  /\ ((parseInt (Some "18") = NaN \/ parseInt (Some "18") = JInt 0) ->
      ui_tokenDecimals input = 6).
Proof.
  apply (collected_input_is_complete "" "25" "" "18" "" "0xsender").
  vm_compute. reflexivity.
Defined.

Lemma monitoring_stops_witness :
  let finished := {| ts_intent := Sample.intent;
                     ts_webhookEvents := [];
                     ts_statusMessage := StageText "Transfer completed!";
                     ts_isComplete := true;
                     ts_isFailed := false |} in
  let polls := fun k : nat =>
    if (k =? 2)%nat then Returned finished else Thrown (Rejected "fetch failed") in
  monitorTransferStatus polls = (3%nat, true)
  /\ (3 <= 15)%nat
  /\ ends_monitoring (polls 2%nat) = true.
Proof.
  cbv zeta. split; [reflexivity|].
  destruct (monitoring_stops
              (fun k : nat =>
                 if (k =? 2)%nat
                 then Returned {| ts_intent := Sample.intent;
                                  ts_webhookEvents := [];
                                  ts_statusMessage := StageText "Transfer completed!";
                                  ts_isComplete := true;
                                  ts_isFailed := false |}
                 else Thrown (Rejected "fetch failed"))
              3%nat true eq_refl) as (Hle & _ & Hdone & _).
  split; [exact Hle | apply Hdone; reflexivity].
Defined.

(* ===================================================================== *)
(** * The express server of the SDK demo *)
(* ===================================================================== *)

Lemma sdk_webhook_configured e secret st payload signature (timestamp : jsnum) header :
  secret_of e = Some secret ->
  (match header with
   | Some h => if String.eqb h "" then JInt (now_seconds e) else parseInt (Some h)
   | None => JInt (now_seconds e)
   end) = timestamp ->
  Sdk.webhook e st payload signature header
  = if stale e timestamp then
      Run (Returned {| Sdk.status := 400; Sdk.body := Sdk.ErrorBody "Invalid timestamp" |}) st []
    else if bool_decide (signature = Some (expected_signature secret timestamp payload)) then
      Run (match payload with
           | JNull => Thrown TypeError
           | _ => Returned {| Sdk.status := 200;
                              Sdk.body := Sdk.WebhookReceived (member payload "id")
                                            (member payload "type") (intent_address_of payload) |}
           end)
          (if truthy (intent_address_of payload)
           then <[key_of (intent_address_of payload) :=
                    get_events st (key_of (intent_address_of payload)) ++ [event_of e payload]]> st
           else st)
          []
    else
      Run (Returned {| Sdk.status := 401; Sdk.body := Sdk.ErrorBody "Invalid signature" |}) st
          [LogWarn "Invalid webhook signature"].
Proof.
  intros Hs Hts. unfold Sdk.webhook. rewrite Hs, Hts. fold (stale e timestamp).
  destruct (stale e timestamp); [reflexivity|]. cbv zeta.
  fold (expected_signature secret timestamp payload).
  rewrite strict_equal_decides.
  destruct (bool_decide _); cbn [negb]; [| reflexivity].
  destruct payload; reflexivity.
Qed.

(** X20.  For a request that carries a timestamp header, the express
    server of the SDK demo records exactly what the api service records,
    and answers in step with it: 200 with the event's id and type where
    the service returns, 400 (stale timestamp) or 401 (wrong signature)
    where the service throws Unauthorized, and a TypeError where the
    service throws one. *)
Theorem sdk_webhook_agrees_with_service
    (e : env) (st : store) (payload : json) (signature : option string) (header : string) :
  header <> "" ->
  let sdk := Sdk.webhook e st payload signature (Some header) in
  let api := handleWebhook ApiService e st payload signature (Some header) in
  webhookEvents sdk = webhookEvents api
  /\ match result api with
     | Returned ack =>
         result sdk = Returned {| Sdk.status := 200;
                                  Sdk.body := Sdk.WebhookReceived (ack_eventId ack)
                                                (ack_eventType ack) (intent_address_of payload) |}
     | Thrown (UnauthorizedException _) =>
         exists (code : Z) (text : string),
           result sdk = Returned {| Sdk.status := code; Sdk.body := Sdk.ErrorBody text |}
           /\ (code = 400 \/ code = 401)
     | Thrown ex => result sdk = Thrown ex
     end.
Proof.
  intros Hne. cbv zeta. rewrite handleWebhook_unfold. cbv zeta.
  rewrite handleWebhookEvent_unfold. set (timestamp := parseInt (Some header)).
  assert (Hsdk_ok : forall logs,
             payload <> JNull ->
             match payload with
             | JNull => Run (Thrown TypeError) (if truthy (intent_address_of payload)
                 then <[key_of (intent_address_of payload) :=
                          get_events st (key_of (intent_address_of payload))
                          ++ [event_of e payload]]> st else st) logs
             | _ => Run (Returned {| Sdk.status := 200;
                                     Sdk.body := Sdk.WebhookReceived (member payload "id")
                                                   (member payload "type")
                                                   (intent_address_of payload) |})
                        (if truthy (intent_address_of payload)
                         then <[key_of (intent_address_of payload) :=
                                  get_events st (key_of (intent_address_of payload))
                                  ++ [event_of e payload]]> st else st) logs
             end
             = Run (Returned {| Sdk.status := 200;
                                Sdk.body := Sdk.WebhookReceived (member payload "id")
                                              (member payload "type")
                                              (intent_address_of payload) |})
                   (if truthy (intent_address_of payload)
                    then <[key_of (intent_address_of payload) :=
                             get_events st (key_of (intent_address_of payload))
                             ++ [event_of e payload]]> st else st) logs).
  { intros logs Hnn. destruct payload; try contradiction; reflexivity. }
  destruct (secret_of e) as [secret|] eqn:Hs.
  - rewrite (sdk_webhook_configured e secret st payload signature timestamp (Some header) Hs).
    2: { destruct (String.eqb_spec header ""); [contradiction | reflexivity]. }
    pose proof (verify_configured ApiService e secret payload signature timestamp Hs) as Hv.
    destruct (stale e timestamp); cbn [negb andb] in Hv.
    + rewrite handle_rejected by exact Hv. cbn [result webhookEvents].
      split; [reflexivity|]. eauto 6.
    + destruct (bool_decide _).
      * destruct (decide (payload = JNull)) as [-> | Hnn].
        -- rewrite handle_null by exact Hv. cbn [result webhookEvents truthy].
           split; reflexivity.
        -- rewrite handle_accepted by assumption.
           cbn [result webhookEvents eventId eventType ack_eventId ack_eventType].
           split; [reflexivity|]. destruct payload; try contradiction; reflexivity.
      * rewrite handle_rejected by exact Hv. cbn [result webhookEvents].
        split; [reflexivity|]. eauto 6.
  - destruct (verify_no_secret ApiService e payload signature timestamp Hs) as [Hv _].
    unfold Sdk.webhook. rewrite Hs.
    destruct (decide (payload = JNull)) as [-> | Hnn].
    + rewrite handle_null by exact Hv. cbn [result webhookEvents truthy].
      split; reflexivity.
    + rewrite handle_accepted by assumption. rewrite (Hsdk_ok _ Hnn).
      cbn [result webhookEvents eventId eventType ack_eventId ack_eventType].
      split; reflexivity.
Qed.

Lemma sdk_webhook_agrees_with_service_witness :
  let sdk := Sdk.webhook Sample.environment ∅ Sample.payload
               (Some Sample.signature_now) (Some "1700000000") in
  let api := handleWebhook ApiService Sample.environment ∅ Sample.payload
               (Some Sample.signature_now) (Some "1700000000") in
  webhookEvents sdk = webhookEvents api.
Proof.
  cbv zeta.
  assert (Hne : "1700000000" <> "") by discriminate.
  pose proof (sdk_webhook_agrees_with_service Sample.environment ∅ Sample.payload
                (Some Sample.signature_now) "1700000000" Hne) as H.
  cbv zeta in H. destruct H as [H _]. exact H.
Defined.

(** X21.  When the timestamp header is missing or empty the express
    server takes the clock for the timestamp, so with a secret configured
    such a request is never answered 400: it is accepted if its signature
    is the one expected for the current second, and answered 401
    otherwise, with nothing recorded.  (The clock and the numbers of the
    payload are integers that JS holds exactly.) *)
Theorem sdk_missing_timestamp_counts_as_now
    (e : env) (st : store) (payload : json) (secret : string)
    (signature header : option string) :
  secret_of e = Some secret ->
  header = None \/ header = Some "" ->
  payload <> JNull ->
  Z.abs (now_seconds e) <= MAX_SAFE_INTEGER ->
  exact_numbers payload = true ->
  let r := Sdk.webhook e st payload signature header in
  let expected :=
    "sha256=" +:+ hmac_sha256_hex secret
                    (pretty (now_seconds e) +:+ "." +:+ JSON_stringify payload) in
  (signature = Some expected ->
   result r = Returned {| Sdk.status := 200;
                          Sdk.body := Sdk.WebhookReceived (member payload "id")
                                        (member payload "type") (intent_address_of payload) |})
  /\ (signature <> Some expected ->
      result r = Returned {| Sdk.status := 401; Sdk.body := Sdk.ErrorBody "Invalid signature" |}
      /\ webhookEvents r = st).
Proof.
  intros Hs Hheader Hnn _ _. cbv zeta.
  rewrite (sdk_webhook_configured e secret st payload signature (JInt (now_seconds e)) header Hs).
  2: { destruct Hheader as [-> | ->]; reflexivity. }
  assert (Hfresh : stale e (JInt (now_seconds e)) = false).
  { rewrite stale_int, Z.sub_diag. reflexivity. }
  rewrite Hfresh. rewrite <- expected_signature_int. split.
  - intros Hsig. rewrite (bool_decide_eq_true_2 _ Hsig). cbn [result].
    destruct payload; try contradiction; reflexivity.
  - intros Hsig. rewrite (bool_decide_eq_false_2 _ Hsig). cbn [result webhookEvents]. auto.
Qed.

Lemma sdk_missing_timestamp_counts_as_now_witness :
  let r := Sdk.webhook Sample.environment ∅ Sample.payload (Some Sample.signature_now) None in
  result r = Returned {| Sdk.status := 200;
                         Sdk.body := Sdk.WebhookReceived (Some (JStr "evt_1"))
                                       (Some (JStr "intent.funded")) (Some (JStr "0xabc")) |}.
Proof.
  cbv zeta.
  destruct (sdk_missing_timestamp_counts_as_now Sample.environment ∅ Sample.payload "whsec_test"
              (Some Sample.signature_now) None eq_refl (or_introl eq_refl)) as [Hok _].
  { discriminate. }
  { vm_compute. discriminate. }
  { reflexivity. }
  apply Hok. vm_compute. reflexivity.
Defined.

(** X22.  The transfer endpoint of the express server touches the store
    only for a truthy intent address: when creating the intent failed
    (answered 500) or the response carries no usable [intent_address],
    the store is left as it was, where [createTransfer] of the services
    files an empty log under the key it was given, [undefined] included. *)
Theorem sdk_transfer_guards_the_store
    (st : store) (network : option json) (sourceChain : string) (intent : json) (ex : exn) :
  webhookEvents (Sdk.transfer st network (Thrown ex)) = st
  /\ (exists text : string,
         result (Sdk.transfer st network (Thrown ex))
         = Returned {| Sdk.status := 500; Sdk.body := Sdk.ErrorBody text |})
  /\ (truthy (member intent "intent_address") = false ->
      intent <> JNull ->
      webhookEvents (Sdk.transfer st network (Returned intent)) = st
      /\ webhookEvents (createTransfer st sourceChain (Returned intent))
           !! key_of (member intent "intent_address") = Some []).
Proof.
  split; [reflexivity|]. split; [cbn [Sdk.transfer result]; eauto|].
  intros Hfalsy Hnn. split.
  - unfold Sdk.transfer. cbn [webhookEvents].
    replace (opt_member (Some intent) "intent_address") with (member intent "intent_address")
      by (destruct intent; try contradiction; reflexivity).
    now rewrite Hfalsy.
  - rewrite createTransfer_store by assumption. apply lookup_insert_eq.
Qed.

Lemma sdk_transfer_guards_the_store_witness :
  let intent := JObj 16 [("id", JNum 7)] in
  webhookEvents (Sdk.transfer ∅ None (Returned intent)) = ∅
  /\ webhookEvents (createTransfer ∅ "BASE_TESTNET" (Returned intent)) !! KUndefined = Some [].
Proof.
  cbv zeta.
  destruct (sdk_transfer_guards_the_store ∅ None "BASE_TESTNET" (JObj 16 [("id", JNum 7)])
              TypeError) as (_ & _ & H).
  apply H; [reflexivity | discriminate].
Defined.

(* ===================================================================== *)
(** * The intents endpoints *)
(* ===================================================================== *)

Lemma number_param_in (name name' value : string) (v : option jsnum) :
  In (name', value) (number_param name v)
  <-> name' = name /\ exists n : Z, v = Some (JInt n) /\ n <> 0 /\ value = pretty n.
Proof.
  unfold number_param. destruct v as [[|n]|].
  - split; [intros [] | intros (_ & n & H & _); discriminate H].
  - destruct (Z.eqb_spec n 0) as [-> | Hn].
    + split; [intros [] | intros (_ & n & [= <-] & Hn & _); contradiction].
    + split.
      * intros [[= <- <-] | []]. split; [reflexivity|]. exists n. auto.
      * intros (-> & n' & [= <-] & _ & ->). now left.
  - split; [intros [] | intros (_ & n & H & _); discriminate H].
Qed.

Lemma string_param_in (name name' value : string) (v : option string) :
  In (name', value) (string_param name v) <-> name' = name /\ v = Some value /\ value <> "".
Proof.
  unfold string_param. destruct v as [s|].
  - destruct (String.eqb_spec s "") as [-> | Hs].
    + split; [intros [] | intros (_ & [= <-] & H); contradiction].
    + split.
      * intros [[= <- <-] | []]. auto.
      * intros (-> & [= ->] & _). now left.
  - split; [intros [] | intros (_ & H & _); discriminate H].
Qed.

(** X23.  The query [GET /intents] sends upstream carries a [limit]
    exactly when the request's [limit] parses as an integer other than
    0, and then as that integer in decimal; a limit of 0, an empty one and
    one that is not a number are silently dropped.  The same holds for
    [offset].  (For numbers that JS holds exactly.) *)
Theorem intents_query_drops_zero_and_garbage
    (limit offset status : option string) (name value : string) :
  prints_exactly (parseInt limit) = true ->
  prints_exactly (parseInt offset) = true ->
  name = "limit" \/ name = "offset" ->
  In (name, value) (IntentsController_getAllIntents_query limit offset status)
  <-> exists (text : string) (n : Z),
        (if String.eqb name "limit" then limit else offset) = Some text
        /\ parseInt (Some text) = JInt n
        /\ n <> 0
        /\ value = pretty n.
Proof.
  assert (Hparse : forall (v : option string) (n : Z),
             parse_if_present v = Some (JInt n)
             <-> exists text, v = Some text /\ parseInt (Some text) = JInt n).
  { intros v n. unfold parse_if_present. destruct v as [s|].
    - destruct (String.eqb_spec s "") as [-> | Hs].
      + split; [discriminate|]. intros (text & [= <-] & H). discriminate H.
      + split.
        * intros [= H]. eauto.
        * intros (text & [= <-] & ->). reflexivity.
    - split; [discriminate | intros (text & H & _); discriminate H]. }
  intros _ _ Hname.
  unfold IntentsController_getAllIntents_query, getAllIntents_query.
  rewrite !in_app_iff, !number_param_in, string_param_in.
  destruct Hname as [-> | ->]; cbn [String.eqb Ascii.eqb Bool.eqb].
  - split.
    + intros [(_ & n & Hv & Hn & ->) | [(H & _) | (H & _)]]; try discriminate H.
      apply Hparse in Hv as (text & -> & Hp). eauto 6.
    + intros (text & n & -> & Hp & Hn & ->). left. split; [reflexivity|].
      exists n. split; [| auto]. apply Hparse. eauto.
  - split.
    + intros [(H & _) | [(_ & n & Hv & Hn & ->) | (H & _)]]; try discriminate H.
      apply Hparse in Hv as (text & -> & Hp). eauto 6.
    + intros (text & n & -> & Hp & Hn & ->). right. left. split; [reflexivity|].
      exists n. split; [| auto]. apply Hparse. eauto.
Qed.

Lemma intents_query_drops_zero_and_garbage_witness :
  (In ("limit", "25") (IntentsController_getAllIntents_query (Some "25") (Some "0") None)
   <-> exists (text : string) (n : Z),
         Some "25" = Some text /\ parseInt (Some text) = JInt n /\ n <> 0 /\ "25" = pretty n)
  /\ IntentsController_getAllIntents_query (Some "25") (Some "0") None = [("limit", "25")].
Proof.
  split; [| vm_compute; reflexivity].
  apply (intents_query_drops_zero_and_garbage (Some "25") (Some "0") None "limit" "25");
    [reflexivity | reflexivity | left; reflexivity].
Defined.

(* ===================================================================== *)
(** * Decimal notation *)
(* ===================================================================== *)

Section Decimal.

Local Open Scope N_scope.

Lemma string_app_assoc (s t u : string) : (s +:+ t) +:+ u = s +:+ (t +:+ u).
Proof.
  induction s as [|c s IH]; [reflexivity|].
  change (String c ((s +:+ t) +:+ u) = String c (s +:+ (t +:+ u))). now f_equal.
Qed.

Lemma pretty_N_go_app (x : N) (s : string) :
  pretty_N_go x s = pretty_N_go x "" +:+ s.
Proof.
  revert s. induction (N.lt_wf_0 x) as [x _ IH]. intros s.
  destruct (N.eq_dec x 0) as [-> | Hx].
  - now rewrite !pretty_N_go_0.
  - assert (Hpos : 0 < x) by lia.
    rewrite (pretty_N_go_step x s Hpos), (pretty_N_go_step x "" Hpos).
    assert (Hlt : x / 10 < x) by (apply N.div_lt; lia).
    rewrite (IH _ Hlt (String _ s)), (IH _ Hlt (String _ "")).
    rewrite string_app_assoc. reflexivity.
Qed.

Lemma chars_app (s t : string) :
  list_ascii_of_string (s +:+ t) = list_ascii_of_string s ++ list_ascii_of_string t.
Proof.
  induction s as [|c s IH]; [reflexivity|].
  change (c :: list_ascii_of_string (s +:+ t)
          = c :: (list_ascii_of_string s ++ list_ascii_of_string t)).
  now f_equal.
Qed.

Lemma pretty_N_go_snoc (x : N) :
  0 < x ->
  list_ascii_of_string (pretty_N_go x "")
  = list_ascii_of_string (pretty_N_go (x / 10) "") ++ [pretty_N_char (x mod 10)].
Proof.
  intros Hpos. rewrite (pretty_N_go_step x "" Hpos), pretty_N_go_app, chars_app. reflexivity.
Qed.

Lemma length_numeral (k : nat) (v : N) : length (numeral k v) = k.
Proof.
  revert v. induction k as [|k IH]; intros v; cbn [numeral]; [reflexivity|].
  rewrite length_app, IH. cbn. lia.
Qed.

Lemma numeral_zero (k : nat) : numeral k 0 = replicate k "0"%char.
Proof.
  induction k as [|k IH]; cbn [numeral]; [reflexivity|].
  change (0 / 10) with 0. rewrite IH. change (pretty_N_char (0 mod 10)) with "0"%char.
  clear IH. induction k as [|k IH]; cbn; [reflexivity | now rewrite IH].
Qed.

Lemma pow10_pos (k : nat) : 0 < 10 ^ N.of_nat k.
Proof. apply N.neq_0_lt_0, N.pow_nonzero. lia. Qed.

Lemma pow10_succ (k : nat) : 10 ^ N.of_nat (S k) = 10 * 10 ^ N.of_nat k.
Proof. rewrite Nat2N.inj_succ, N.pow_succ_r'. reflexivity. Qed.

(** A numeral splits into the numerals of quotient and remainder. *)
Lemma numeral_split (a b : nat) (v : N) :
  numeral (a + b) v = numeral a (v / 10 ^ N.of_nat b) ++ numeral b (v mod 10 ^ N.of_nat b).
Proof.
  revert v. induction b as [|b IH]; intros v.
  - rewrite Nat.add_0_r. cbn [numeral N.of_nat]. rewrite N.pow_0_r, N.div_1_r, app_nil_r.
    reflexivity.
  - rewrite Nat.add_succ_r. cbn [numeral]. rewrite IH, <- app_assoc. f_equal.
    + f_equal. rewrite pow10_succ, N.Div0.div_div. reflexivity.
    + pose proof (pow10_pos b) as Hb.
      assert (Hmod : v mod 10 ^ N.of_nat (S b)
                     = v mod 10 + 10 * ((v / 10) mod 10 ^ N.of_nat b)).
      { rewrite pow10_succ. apply N.Div0.mod_mul_r. }
      assert (Hsmall : v mod 10 < 10) by (apply N.mod_lt; lia).
      f_equal.
      * f_equal. rewrite Hmod.
        rewrite (N.add_comm (v mod 10)), (N.mul_comm 10), N.div_add_l by lia.
        rewrite (N.div_small (v mod 10)) by assumption. lia.
      * f_equal. f_equal. rewrite Hmod.
        rewrite (N.mul_comm 10), N.Div0.mod_add.
        symmetry. apply N.Div0.mod_mod.
Qed.

(** Padding with zeros on the left. *)
Lemma numeral_pad (j k : nat) (v : N) :
  v < 10 ^ N.of_nat k ->
  numeral (j + k) v = replicate j "0"%char ++ numeral k v.
Proof.
  intros Hv. rewrite numeral_split, N.div_small, N.mod_small, numeral_zero by assumption.
  reflexivity.
Qed.

(** The numeral on as many digits as the number has is what [pretty] prints. *)
Lemma numeral_pretty (k : nat) (v : N) :
  (1 <= k)%nat ->
  v < 10 ^ N.of_nat k ->
  (k = 1%nat \/ 10 ^ N.of_nat (k - 1) <= v) ->
  numeral k v = list_ascii_of_string (pretty v).
Proof.
  intros Hk Hlt Hge. unfold pretty, pretty_N.
  destruct (decide (v = 0)) as [-> | Hv].
  - destruct Hge as [-> | Hge]; [reflexivity|].
    pose proof (pow10_pos (k - 1)). lia.
  - revert v Hlt Hge Hv. induction k as [|k IH]; intros v Hlt Hge Hv; [lia|].
    cbn [numeral]. rewrite pretty_N_go_snoc by lia. f_equal.
    destruct k as [|k].
    + cbn [numeral]. rewrite N.div_small by (cbn in Hlt; lia). reflexivity.
    + apply IH.
      * lia.
      * rewrite pow10_succ in Hlt. apply N.Div0.div_lt_upper_bound. lia.
      * right. destruct Hge as [Hge | Hge]; [discriminate Hge|].
        replace (S (S k) - 1)%nat with (S k) in Hge by lia.
        replace (S k - 1)%nat with k by lia.
        rewrite pow10_succ in Hge.
        apply N.div_le_lower_bound; lia.
      * assert (10 ^ N.of_nat (S k) <= v).
        { destruct Hge as [Hge | Hge]; [discriminate Hge|].
          now replace (S (S k) - 1)%nat with (S k) in Hge by lia. }
        rewrite pow10_succ in H. pose proof (pow10_pos k).
        intros Hz. apply N.div_small_iff in Hz; lia.
Qed.

(** Every number has such a numeral. *)
Lemma digits_exist (v : N) :
  exists k : nat,
    (1 <= k)%nat /\ v < 10 ^ N.of_nat k /\ (k = 1%nat \/ 10 ^ N.of_nat (k - 1) <= v).
Proof.
  induction (N.lt_wf_0 v) as [v _ IH].
  destruct (N.lt_ge_cases v 10) as [Hsmall | Hbig].
  - exists 1%nat. cbn. repeat split; auto; lia.
  - destruct (IH (v / 10)) as (k & Hk & Hlt & Hge).
    { apply N.div_lt; lia. }
    exists (S k). split; [lia|]. split.
    + rewrite pow10_succ.
      pose proof (N.div_mod v 10 ltac:(lia)). pose proof (N.mod_lt v 10 ltac:(lia)). lia.
    + right. replace (S k - 1)%nat with k by lia.
      destruct Hge as [-> | Hge].
      * cbn. lia.
      * assert (Hk' : k = S (k - 1)) by lia.
        rewrite Hk' at 1. rewrite pow10_succ.
        generalize dependent (10 ^ N.of_nat (k - 1)). intros P HP.
        pose proof (N.Div0.mul_div_le v 10). clear IH Hlt Hk'. lia.
Qed.

Lemma pretty_numeral (v : N) :
  exists k : nat,
    (1 <= k)%nat /\ v < 10 ^ N.of_nat k /\ (k = 1%nat \/ 10 ^ N.of_nat (k - 1) <= v)
    /\ list_ascii_of_string (pretty v) = numeral k v.
Proof.
  destruct (digits_exist v) as (k & Hk & Hlt & Hge).
  exists k. repeat split; try assumption. symmetry. now apply numeral_pretty.
Qed.

Lemma pretty_N_char_digit (v : N) : is_digit_char (pretty_N_char v) = true.
Proof.
  unfold pretty_N_char.
  destruct v as [|p]; [reflexivity|].
  do 4 (destruct p as [p|p|]; try reflexivity).
Qed.

Lemma numeral_digits (k : nat) (v : N) : Forall (fun c => is_digit_char c = true) (numeral k v).
Proof.
  revert v. induction k as [|k IH]; intros v; cbn [numeral]; [constructor|].
  apply Forall_app. split; [apply IH|]. constructor; [apply pretty_N_char_digit | constructor].
Qed.

Lemma filter_all {A : Type} (p : A -> bool) (l : list A) :
  Forall (fun x => p x = true) l -> List.filter p l = l.
Proof.
  induction 1 as [|x l Hx _ IH]; cbn; [reflexivity|]. now rewrite Hx, IH.
Qed.

End Decimal.

(* ===================================================================== *)
(** * Facts about [parseInt] *)
(* ===================================================================== *)

Lemma bytes_of_string_app (s t : string) :
  bytes_of_string (s +:+ t) = bytes_of_string s ++ bytes_of_string t.
Proof. unfold bytes_of_string. now rewrite chars_app, map_app. Qed.

Lemma digit_byte (v : N) :
  (v < 10)%N ->
  is_digit (Z.of_N (N_of_ascii (pretty_N_char v))) = true
  /\ Z.of_N (N_of_ascii (pretty_N_char v)) - 48 = Z.of_N v.
Proof.
  intros Hv. destruct v as [|p]; [split; reflexivity|].
  do 4 (destruct p as [p|p|]; try (split; reflexivity); try lia).
Qed.

Lemma is_prefix_at_head (p b : Z) (ps bs : list Z) :
  p <> b -> is_prefix_at (p :: ps) (b :: bs) = false.
Proof.
  intros Hne. unfold is_prefix_at. apply bool_decide_eq_false.
  cbn [length firstn]. intros Heq. apply Hne. now inversion Heq.
Qed.

Lemma white_space_width_printable (b : Z) (bs : list Z) :
  32 < b < 194 -> white_space_width (b :: bs) = 0%nat.
Proof.
  intros Hb. unfold white_space_width.
  replace (((9 <=? b) && (b <=? 13)) || (b =? 32)) with false
    by (symmetry; apply orb_false_iff; split;
        [apply andb_false_iff; right; lia | lia]).
  rewrite !is_prefix_at_head by lia. reflexivity.
Qed.

Lemma trim_start_printable (fuel : nat) (b : Z) (bs : list Z) :
  32 < b < 194 -> trim_start fuel (b :: bs) = b :: bs.
Proof.
  intros Hb. destruct fuel as [|fuel]; [reflexivity|].
  cbn [trim_start]. now rewrite white_space_width_printable.
Qed.

Lemma leading_digits_start (b : Z) (bs : list Z) :
  48 <= b <= 57 ->
  leading_digits (b :: bs) None = leading_digits (b :: bs) (Some 0).
Proof.
  intros Hb. cbn [leading_digits]. unfold is_digit.
  replace ((48 <=? b) && (b <=? 57)) with true by (symmetry; apply andb_true_iff; lia).
  reflexivity.
Qed.

Lemma leading_digits_numeral (k : nat) (v : N) (rest : list Z) (a : Z) :
  leading_digits (map (fun c => Z.of_N (N_of_ascii c)) (numeral k v) ++ rest) (Some a)
  = leading_digits rest
      (Some (a * Z.of_N (10 ^ N.of_nat k) + Z.of_N (v mod 10 ^ N.of_nat k))).
Proof.
  revert v rest a. induction k as [|k IH]; intros v rest a.
  - cbn [numeral map app N.of_nat]. rewrite N.pow_0_r, N.mod_1_r. do 2 f_equal. lia.
  - cbn [numeral]. rewrite map_app, <- app_assoc. cbn [map app].
    rewrite IH. cbn [leading_digits].
    destruct (digit_byte (v mod 10)) as [Hdigit Hvalue]; [apply N.mod_lt; lia|].
    rewrite Hdigit, Hvalue. cbn [default]. do 2 f_equal.
    assert (Hmod : (v mod 10 ^ N.of_nat (S k)
                    = v mod 10 + 10 * ((v / 10) mod 10 ^ N.of_nat k))%N).
    { rewrite pow10_succ. apply N.Div0.mod_mul_r. }
    rewrite Hmod, pow10_succ.
    unfold id. clear.
    generalize ((v / 10) mod 10 ^ N.of_nat k)%N. intros x.
    generalize (10 ^ N.of_nat k)%N (v mod 10)%N. intros p r. lia.
Qed.

Lemma leading_digits_stop (s : string) (acc : option Z) :
  starts_with_digit s = false -> leading_digits (bytes_of_string s) acc = acc.
Proof.
  destruct s as [|c s]; [reflexivity|].
  cbn [starts_with_digit]. unfold is_digit_char, bytes_of_string.
  cbn [list_ascii_of_string map leading_digits]. now intros ->.
Qed.

Lemma first_digit (k : nat) (v : N) :
  (1 <= k)%nat ->
  exists (b : Z) (bs : list Z),
    map (fun c => Z.of_N (N_of_ascii c)) (numeral k v) = b :: bs /\ 48 <= b <= 57.
Proof.
  intros Hk. replace k with (1 + (k - 1))%nat by lia.
  rewrite numeral_split. cbn [numeral app map].
  eexists _, _. split; [reflexivity|].
  destruct (digit_byte ((v / 10 ^ N.of_nat (k - 1)) mod 10)) as [Hdigit _];
    [apply N.mod_lt; lia|].
  unfold is_digit in Hdigit. lia.
Qed.

Lemma sign_of_digit (b : Z) (bs : list Z) :
  48 <= b <= 57 ->
  match b :: bs with
  | 45 :: rest => (-1, rest)
  | 43 :: rest => (1, rest)
  | _ => (1, b :: bs)
  end = (1, b :: bs).
Proof.
  intros Hb.
  assert (Hcases : b = 48 \/ b = 49 \/ b = 50 \/ b = 51 \/ b = 52
                   \/ b = 53 \/ b = 54 \/ b = 55 \/ b = 56 \/ b = 57) by lia.
  repeat (destruct Hcases as [-> | Hcases]; [reflexivity|]). now subst.
Qed.

(** [parseInt] of a decimal numeral followed by anything but a digit. *)
Lemma parseInt10_numeral (n : N) (suffix : string) :
  starts_with_digit suffix = false ->
  parseInt10 (pretty n +:+ suffix) = JInt (Z.of_N n)
  /\ parseInt10 ("-" +:+ pretty n +:+ suffix) = JInt (- Z.of_N n).
Proof.
  intros Hsuffix.
  destruct (pretty_numeral n) as (k & Hk & Hlt & _ & Hchars).
  destruct (first_digit k n Hk) as (b & bs & Hbytes & Hb).
  assert (Hpretty : bytes_of_string (pretty n +:+ suffix)
                    = b :: bs ++ bytes_of_string suffix).
  { rewrite bytes_of_string_app. unfold bytes_of_string at 1. now rewrite Hchars, Hbytes. }
  assert (Hvalue : leading_digits (b :: bs ++ bytes_of_string suffix) None = Some (Z.of_N n)).
  { rewrite leading_digits_start by assumption.
    change (b :: bs ++ bytes_of_string suffix) with ((b :: bs) ++ bytes_of_string suffix).
    rewrite <- Hbytes, leading_digits_numeral, leading_digits_stop by assumption.
    rewrite N.mod_small by assumption. f_equal; lia. }
  split.
  - unfold parseInt10. rewrite Hpretty, trim_start_printable by lia.
    rewrite sign_of_digit by assumption. rewrite Hvalue. f_equal; lia.
  - unfold parseInt10.
    change (bytes_of_string ("-" +:+ pretty n +:+ suffix))
      with (45 :: bytes_of_string (pretty n +:+ suffix)).
    rewrite Hpretty, trim_start_printable by lia.
    cbv beta iota. rewrite Hvalue. f_equal; lia.
Qed.

Lemma parseInt_decimal (ts : Z) (suffix : string) :
  starts_with_digit suffix = false ->
  parseInt (Some (pretty ts +:+ suffix)) = JInt ts.
Proof.
  intros Hsuffix. unfold parseInt. cbn [default].
  destruct ts as [|p|p].
  - exact (proj1 (parseInt10_numeral 0 suffix Hsuffix)).
  - exact (proj1 (parseInt10_numeral (Npos p) suffix Hsuffix)).
  - pose proof (proj2 (parseInt10_numeral (Npos p) suffix Hsuffix)) as H.
    unfold pretty at 1, pretty_Z. rewrite string_app_assoc. exact H.
Qed.

(* ===================================================================== *)
(** * Properties of the timestamp header *)
(* ===================================================================== *)

(** X24.  The controller reads the timestamp header as [parseInt] does:
    a decimal numeral followed by anything that does not start with a
    digit is read as the numeral alone, so the delivery is handled, and
    its signature checked, exactly as with the bare numeral in the header. *)
Theorem timestamp_header_is_read_up_to_first_non_digit
    (svc : service) (e : env) (st : store) (payload : json)
    (signature : option string) (ts : Z) (suffix : string) :
  Z.abs ts <= MAX_SAFE_INTEGER ->
  starts_with_digit suffix = false ->
  parseInt (Some (pretty ts +:+ suffix)) = JInt ts
  /\ handleWebhook svc e st payload signature (Some (pretty ts +:+ suffix))
     = handleWebhook svc e st payload signature (Some (pretty ts)).
Proof.
  intros _ Hsuffix.
  pose proof (parseInt_decimal ts suffix Hsuffix) as Htail.
  pose proof (parseInt_decimal ts "" eq_refl) as Hbare.
  assert (Hnil : pretty ts +:+ "" = pretty ts).
  { generalize (pretty ts). intros s. induction s as [|c s IH]; [reflexivity|].
    change (String c (s +:+ "") = String c s). now f_equal. }
  rewrite Hnil in Hbare.
  split; [exact Htail|].
  rewrite !handleWebhook_unfold, Htail, Hbare. reflexivity.
Qed.

Lemma timestamp_header_is_read_up_to_first_non_digit_witness :
  parseInt (Some (pretty 1700000000 +:+ " UTC")) = JInt 1700000000
  /\ handleWebhook ServerService Sample.environment ∅ Sample.payload
       (Some Sample.signature_now) (Some (pretty 1700000000 +:+ " UTC"))
     = handleWebhook ServerService Sample.environment ∅ Sample.payload
         (Some Sample.signature_now) (Some (pretty 1700000000)).
Proof.
  apply (timestamp_header_is_read_up_to_first_non_digit ServerService Sample.environment ∅
           Sample.payload (Some Sample.signature_now) 1700000000 " UTC").
  - vm_compute. discriminate.
  - reflexivity.
Defined.

(* ===================================================================== *)
(** * Facts about [formatUnits] *)
(* ===================================================================== *)

Lemma string_of_chars_app (a b : list ascii) :
  string_of_list_ascii (a ++ b) = string_of_list_ascii a +:+ string_of_list_ascii b.
Proof.
  induction a as [|c a IH]; [reflexivity|].
  change (String c (string_of_list_ascii (a ++ b))
          = String c (string_of_list_ascii a +:+ string_of_list_ascii b)).
  now f_equal.
Qed.

Lemma formatUnits_unfold (value : string) (d : Z) :
  0 < d ->
  formatUnits value (JInt d)
  = match digits_of value with
    | [] => "0"
    | _ :: _ =>
        string_of_list_ascii
          ((if starts_with_minus value then ["-"%char] else [])
           ++ formatted_of (Z.to_nat d) (digits_of value))
    end.
Proof.
  intros Hd. unfold formatUnits, digits_of.
  destruct (Z.leb_spec d 0) as [? | _]; [lia|].
  destruct value as [|c value]; [reflexivity|].
  cbn [list_ascii_of_string starts_with_minus].
  destruct (Ascii.eqb_spec c "-") as [-> | Hc].
  - change (drop 1 ("-"%char :: list_ascii_of_string value))
      with (list_ascii_of_string value).
    cbn [List.filter]. change (is_digit_char "-") with false. cbn iota.
    destruct (List.filter is_digit_char (list_ascii_of_string value)); reflexivity.
  - destruct (List.filter is_digit_char (c :: list_ascii_of_string value)); reflexivity.
Qed.

Lemma strip_trailing_zeros_snoc (l : list ascii) (c : ascii) :
  strip_trailing_zeros (l ++ [c])
  = if Ascii.eqb c "0" then strip_trailing_zeros l else l ++ [c].
Proof.
  unfold strip_trailing_zeros. rewrite rev_app_distr. cbn [rev app drop_leading_zeros].
  destruct (Ascii.eqb c "0"); [reflexivity|].
  cbn [rev]. now rewrite rev_involutive.
Qed.

Lemma pretty_N_char_zero (v : N) :
  (v < 10)%N -> Ascii.eqb (pretty_N_char v) "0" = (v =? 0)%N.
Proof.
  intros Hv. destruct v as [|p]; [reflexivity|].
  do 4 (destruct p as [p|p|]; try reflexivity; try lia).
Qed.

(** The fraction digits: the numeral of the remainder without the factors
    of ten it ends with. *)
Lemma strip_numeral (d : nat) (r : N) :
  (r = 0%N -> strip_trailing_zeros (numeral d r) = [])
  /\ (r <> 0%N ->
      (r < 10 ^ N.of_nat d)%N ->
      exists (j : nat) (f : N),
        (1 <= j <= d)%nat /\ (f mod 10 <> 0)%N
        /\ (f * 10 ^ N.of_nat (d - j) = r)%N
        /\ strip_trailing_zeros (numeral d r) = numeral j f).
Proof.
  revert r. induction d as [|d IH]; intros r.
  - split; [reflexivity|]. cbn. intros. lia.
  - cbn [numeral]. rewrite strip_trailing_zeros_snoc.
    rewrite pretty_N_char_zero by (apply N.mod_lt; lia).
    pose proof (N.div_mod r 10 ltac:(lia)) as Hr.
    destruct (N.eqb_spec (r mod 10) 0) as [Hz | Hnz].
    + destruct (IH (r / 10)%N) as [IH0 IH1]. split.
      * intros ->. now apply IH0.
      * intros Hne Hlt.
        destruct IH1 as (j & f & Hj & Hf & Hval & Hstrip).
        { lia. }
        { rewrite pow10_succ in Hlt. apply N.Div0.div_lt_upper_bound. lia. }
        exists j, f. repeat split; try lia; try assumption.
        replace (S d - j)%nat with (S (d - j)) by lia.
        rewrite pow10_succ. lia.
    + split.
      * intros ->. now destruct Hnz.
      * intros _ _. exists (S d), r. repeat split; try lia; try assumption.
        replace (S d - S d)%nat with 0%nat by lia. cbn. lia.
Qed.

Lemma formatted_numeral (k places : nat) (n : N) :
  (1 <= k)%nat -> (1 <= places)%nat ->
  (n < 10 ^ N.of_nat k)%N ->
  (k = 1%nat \/ 10 ^ N.of_nat (k - 1) <= n)%N ->
  formatted_of places (numeral k n)
  = list_ascii_of_string (pretty (n / 10 ^ N.of_nat places)%N)
    ++ match strip_trailing_zeros (numeral places (n mod 10 ^ N.of_nat places)%N) with
       | [] => []
       | fractionPart => "."%char :: fractionPart
       end.
Proof.
  intros Hk Hplaces Hlt Hge. unfold formatted_of.
  rewrite length_numeral, <- (numeral_pad _ k n Hlt), length_numeral.
  set (a := (places + 1 - k + k - places)%nat).
  assert (Ha : (places + 1 - k + k = a + places)%nat) by lia.
  rewrite Ha, numeral_split.
  rewrite take_app_length' by now rewrite length_numeral.
  rewrite drop_app_length' by now rewrite length_numeral.
  assert (Hint : numeral a (n / 10 ^ N.of_nat places)%N
                 = list_ascii_of_string (pretty (n / 10 ^ N.of_nat places)%N)).
  { pose proof (pow10_pos places) as Hp.
    apply numeral_pretty.
    - lia.
    - apply N.Div0.div_lt_upper_bound.
      rewrite <- N.pow_add_r, <- Nat2N.inj_add.
      eapply N.lt_le_trans; [exact Hlt|].
      apply N.pow_le_mono_r; lia.
    - destruct (Nat.le_gt_cases k (places + 1)) as [Hsmall | Hbig]; [left; lia|].
      right. destruct Hge as [-> | Hge]; [lia|].
      apply N.div_le_lower_bound; [lia|].
      rewrite <- N.pow_add_r, <- Nat2N.inj_add.
      replace (places + (a - 1))%nat with (k - 1)%nat by lia. exact Hge. }
  rewrite Hint.
  destruct (strip_trailing_zeros (numeral places (n mod 10 ^ N.of_nat places)%N));
    [now rewrite app_nil_r | reflexivity].
Qed.

Lemma digit_is_not_minus (c : ascii) : is_digit_char c = true -> Ascii.eqb c "-" = false.
Proof. intros Hc. destruct (Ascii.eqb_spec c "-") as [-> | _]; [discriminate Hc | reflexivity]. Qed.

Lemma digits_of_pretty (n : N) :
  digits_of (pretty n) = list_ascii_of_string (pretty n)
  /\ starts_with_minus (pretty n) = false
  /\ exists k : nat,
       (1 <= k)%nat /\ (n < 10 ^ N.of_nat k)%N
       /\ (k = 1%nat \/ 10 ^ N.of_nat (k - 1) <= n)%N
       /\ list_ascii_of_string (pretty n) = numeral k n.
Proof.
  destruct (pretty_numeral n) as (k & Hk & Hlt & Hge & Hchars).
  pose proof (numeral_digits k n) as Hdigits. rewrite <- Hchars in Hdigits.
  split; [| split].
  - unfold digits_of. now apply filter_all.
  - destruct (pretty n) as [|c s] eqn:Hs.
    + reflexivity.
    + cbn [starts_with_minus]. apply digit_is_not_minus.
      cbn [list_ascii_of_string] in Hdigits. now inversion Hdigits.
  - now exists k.
Qed.

Lemma formatUnits_numeral (sign : bool) (n : N) (d : Z) :
  0 < d ->
  formatUnits ((if sign then "-" else "") +:+ pretty n) (JInt d)
  = (if sign then "-" else "")
    +:+ pretty (n / 10 ^ Z.to_N d)%N
    +:+ string_of_list_ascii
          match strip_trailing_zeros (numeral (Z.to_nat d) (n mod 10 ^ Z.to_N d)%N) with
          | [] => []
          | fractionPart => "."%char :: fractionPart
          end.
Proof.
  intros Hd. rewrite formatUnits_unfold by assumption.
  destruct (digits_of_pretty n) as (Hdigits & Hminus & k & Hk & Hlt & Hge & Hchars).
  assert (Hd' : digits_of ((if sign then "-" else "") +:+ pretty n) = numeral k n).
  { rewrite <- Hchars, <- Hdigits. now destruct sign. }
  assert (Hs : starts_with_minus ((if sign then "-" else "") +:+ pretty n) = sign).
  { destruct sign; [reflexivity | exact Hminus]. }
  rewrite Hd', Hs.
  destruct (numeral k n) as [|c l] eqn:Hnum.
  { apply (f_equal (@length ascii)) in Hnum. rewrite length_numeral in Hnum. cbn in Hnum. lia. }
  rewrite <- Hnum.
  rewrite (formatted_numeral k (Z.to_nat d) n) by (try assumption; lia).
  rewrite Z_nat_N.
  rewrite !string_of_chars_app, string_of_list_ascii_of_string.
  now destruct sign.
Qed.

(* ===================================================================== *)
(** * Properties of [formatUnits] *)
(* ===================================================================== *)

(** X25.  For a decimal numeral [z] and a positive number of places [d],
    [formatUnits] prints the sign, then the quotient of [|z|] by [10^d] in
    decimal, then the fraction: nothing when the remainder is zero, and
    otherwise a point and the [j]-digit numeral of the number [f] that does
    not end in zero and stands for the remainder, [f * 10^(d-j)]. *)
Theorem formatUnits_prints_quotient_and_fraction (z d : Z) :
  0 < d ->
  exists fraction : string,
    formatUnits (pretty z) (JInt d)
    = (if z <? 0 then "-" else "") +:+ pretty (Z.abs_N z / 10 ^ Z.to_N d)%N +:+ fraction
    /\ ((Z.abs_N z mod 10 ^ Z.to_N d = 0)%N -> fraction = "")
    /\ ((Z.abs_N z mod 10 ^ Z.to_N d <> 0)%N ->
        exists (j : nat) (f : N),
          (1 <= j <= Z.to_nat d)%nat /\ (f mod 10 <> 0)%N
          /\ (f * 10 ^ N.of_nat (Z.to_nat d - j) = Z.abs_N z mod 10 ^ Z.to_N d)%N
          /\ fraction = "." +:+ string_of_list_ascii (numeral j f)).
Proof.
  intros Hd.
  set (r := (Z.abs_N z mod 10 ^ Z.to_N d)%N).
  exists (string_of_list_ascii
            match strip_trailing_zeros (numeral (Z.to_nat d) r) with
            | [] => []
            | fractionPart => "."%char :: fractionPart
            end).
  split; [| split].
  - destruct z as [|p|p].
    + exact (formatUnits_numeral false 0 d Hd).
    + exact (formatUnits_numeral false (Npos p) d Hd).
    + exact (formatUnits_numeral true (Npos p) d Hd).
  - intros Hr. destruct (strip_numeral (Z.to_nat d) r) as [H0 _].
    now rewrite (H0 Hr).
  - intros Hr. destruct (strip_numeral (Z.to_nat d) r) as [_ H1].
    destruct H1 as (j & f & Hj & Hf & Hval & Hstrip).
    + exact Hr.
    + rewrite Z_nat_N. apply N.mod_lt. apply N.pow_nonzero. lia.
    + exists j, f. repeat split; try lia; try assumption.
      rewrite Hstrip. destruct (numeral j f) as [|c l] eqn:Hnum; [|reflexivity].
      apply (f_equal (@length ascii)) in Hnum. rewrite length_numeral in Hnum. cbn in Hnum. lia.
Qed.

Lemma formatUnits_prints_quotient_and_fraction_witness :
  exists fraction : string,
    formatUnits (pretty (-1050000)) (JInt 6)
    = (if -1050000 <? 0 then "-" else "")
      +:+ pretty (Z.abs_N (-1050000) / 10 ^ Z.to_N 6)%N +:+ fraction
    /\ ((Z.abs_N (-1050000) mod 10 ^ Z.to_N 6 = 0)%N -> fraction = "")
    /\ ((Z.abs_N (-1050000) mod 10 ^ Z.to_N 6 <> 0)%N ->
        exists (j : nat) (f : N),
          (1 <= j <= Z.to_nat 6)%nat /\ (f mod 10 <> 0)%N
          /\ (f * 10 ^ N.of_nat (Z.to_nat 6 - j) = Z.abs_N (-1050000) mod 10 ^ Z.to_N 6)%N
          /\ fraction = "." +:+ string_of_list_ascii (numeral j f)).
Proof. apply (formatUnits_prints_quotient_and_fraction (-1050000) 6). lia. Defined.

(** X26.  With a positive number of places, [formatUnits] reads from its
    argument only whether it starts with a minus sign and which digits it
    holds, in order: every other character, a decimal point included, is
    dropped without a trace. *)
Theorem formatUnits_reads_sign_and_digits_only (value value' : string) (d : Z) :
  0 < d ->
  starts_with_minus value = starts_with_minus value' ->
  digits_of value = digits_of value' ->
  formatUnits value (JInt d) = formatUnits value' (JInt d).
Proof.
  intros Hd Hsign Hdigits.
  rewrite !formatUnits_unfold by assumption. now rewrite Hsign, Hdigits.
Qed.

Lemma formatUnits_reads_sign_and_digits_only_witness :
  formatUnits "1.5 USDC" (JInt 2) = formatUnits "15" (JInt 2).
Proof.
  apply (formatUnits_reads_sign_and_digits_only "1.5 USDC" "15" 2); [lia | reflexivity..].
Defined.

(** X27.  A minus sign in front of a value that has a digit and no sign of
    its own only puts a minus sign in front of the result, also when the
    result is zero. *)
Theorem formatUnits_keeps_the_sign (value : string) (d : Z) :
  0 < d ->
  starts_with_minus value = false ->
  digits_of value <> [] ->
  formatUnits ("-" +:+ value) (JInt d) = "-" +:+ formatUnits value (JInt d).
Proof.
  intros Hd Hsign Hdigits.
  rewrite !formatUnits_unfold by assumption. rewrite Hsign.
  change (digits_of ("-" +:+ value)) with (digits_of value).
  change (starts_with_minus ("-" +:+ value)) with true.
  destruct (digits_of value) as [|c l]; [now destruct Hdigits | reflexivity].
Qed.

Lemma formatUnits_keeps_the_sign_witness :
  formatUnits ("-" +:+ "000") (JInt 2) = "-" +:+ formatUnits "000" (JInt 2).
Proof.
  apply (formatUnits_keeps_the_sign "000" 2); [lia | reflexivity | vm_compute; discriminate].
Defined.

Lemma drop_leading_zeros_shape (l : list ascii) :
  (drop_leading_zeros l = []
   \/ exists c rest, drop_leading_zeros l = c :: rest /\ c <> "0"%char)
  /\ forall c, In c (drop_leading_zeros l) -> In c l.
Proof.
  induction l as [|c l [IHshape IHin]]; [split; [now left | auto]|].
  cbn [drop_leading_zeros]. destruct (Ascii.eqb_spec c "0") as [-> | Hc].
  - split; [exact IHshape | intros c Hin; right; auto].
  - split; [right; now exists c, l | auto].
Qed.

Lemma strip_trailing_zeros_shape (l : list ascii) :
  (strip_trailing_zeros l = []
   \/ exists front c, strip_trailing_zeros l = front ++ [c] /\ c <> "0"%char)
  /\ forall c, In c (strip_trailing_zeros l) -> In c l.
Proof.
  unfold strip_trailing_zeros.
  destruct (drop_leading_zeros_shape (rev l)) as [Hshape Hin]. split.
  - destruct Hshape as [-> | (c & rest & -> & Hc)]; [now left|].
    right. exists (rev rest), c. split; [reflexivity | assumption].
  - intros c Hc. apply in_rev, Hin, in_rev. exact Hc.
Qed.

Lemma snoc_case {A : Type} (l : list A) :
  l = [] \/ exists front c, l = front ++ [c].
Proof. induction l as [|c front _] using rev_ind; [now left | right; now exists front, c]. Qed.

(** The two parts of what [formatted_of] prints. *)
Lemma formatted_of_shape (places : nat) (digits : list ascii) :
  (1 <= places)%nat ->
  Forall (fun c => is_digit_char c = true) digits ->
  exists (front : list ascii) (c : ascii) (before : list ascii),
    is_digit_char c = true
    /\ Forall (fun c => is_digit_char c = true) front
    /\ ((before = [] /\ formatted_of places digits = front ++ [c])
        \/ (c <> "0"%char
            /\ formatted_of places digits = before ++ "."%char :: front ++ [c]
            /\ Forall (fun c => is_digit_char c = true) before)).
Proof.
  intros Hplaces Hdigits. unfold formatted_of.
  set (padded := replicate (places + 1 - length digits) "0"%char ++ digits).
  assert (Hpadded : Forall (fun c => is_digit_char c = true) padded).
  { apply Forall_app. split; [| assumption]. now apply Forall_replicate. }
  assert (Hlen : (places + 1 <= length padded)%nat).
  { unfold padded. rewrite length_app, length_replicate. lia. }
  set (integerPart := take (length padded - places) padded).
  set (fractionRaw := drop (length padded - places) padded).
  assert (Hint : Forall (fun c => is_digit_char c = true) integerPart)
    by now apply Forall_take.
  assert (Hraw : Forall (fun c => is_digit_char c = true) fractionRaw)
    by now apply Forall_drop.
  destruct (strip_trailing_zeros_shape fractionRaw) as [Hshape Hin].
  assert (Hfrac : Forall (fun c => is_digit_char c = true) (strip_trailing_zeros fractionRaw)).
  { apply List.Forall_forall. intros c Hc. apply Hin in Hc.
    rewrite List.Forall_forall in Hraw. now apply Hraw. }
  destruct Hshape as [Hnil | (front & c & Hsnoc & Hc)].
  - rewrite Hnil. cbn [length Nat.ltb Nat.leb].
    destruct (snoc_case integerPart) as [Hempty | (front & c & Hsnoc)].
    + apply (f_equal (@length ascii)) in Hempty. unfold integerPart in Hempty.
      rewrite length_take in Hempty. cbn in Hempty. lia.
    + rewrite Hsnoc in Hint |- *. apply Forall_app in Hint. destruct Hint as [Hfront Hlast].
      exists front, c, []. split; [now inversion Hlast|]. split; [assumption|]. now left.
  - rewrite Hsnoc in Hfrac |- *. apply Forall_app in Hfrac. destruct Hfrac as [Hfront Hlast].
    replace (0 <? length (front ++ [c]))%nat with true
      by (symmetry; apply Nat.ltb_lt; rewrite length_app; cbn; lia).
    exists front, c, integerPart. split; [now inversion Hlast|]. split; [assumption|].
    right. split; [assumption|]. split; [reflexivity | assumption].
Qed.

(** X28.  With a positive number of places the result always ends with a
    digit, never with the decimal point, and a result that has a decimal
    point does not end with a zero. *)
Theorem formatUnits_ends_with_a_significant_digit (value : string) (d : Z) :
  0 < d ->
  let printed := list_ascii_of_string (formatUnits value (JInt d)) in
  (exists c, last printed = Some c /\ is_digit_char c = true)
  /\ (In "."%char printed -> last printed <> Some "0"%char).
Proof.
  intros Hd printed. unfold printed. clear printed.
  rewrite formatUnits_unfold by assumption.
  destruct (digits_of value) as [|c0 l] eqn:Hdigits.
  { split; [now exists "0"%char|]. cbn. intros [Hin | []]. discriminate Hin. }
  rewrite <- Hdigits. rewrite list_ascii_of_string_of_list_ascii.
  assert (Hall : Forall (fun c => is_digit_char c = true) (digits_of value)).
  { apply List.Forall_forall. intros c Hc. unfold digits_of in Hc.
    apply filter_In in Hc. now destruct Hc. }
  destruct (formatted_of_shape (Z.to_nat d) (digits_of value) ltac:(lia) Hall)
    as (front & c & other & Hc & Hfront & Hshape).
  set (sign := if starts_with_minus value then ["-"%char] else []).
  assert (Hsign : ~ In "."%char sign) by (unfold sign; destruct (starts_with_minus value);
                                          cbn; intuition discriminate).
  assert (Hnodot : forall l', Forall (fun c => is_digit_char c = true) l' -> ~ In "."%char l').
  { intros l' Hl' Hin. rewrite List.Forall_forall in Hl'.
    apply Hl' in Hin. discriminate Hin. }
  destruct Hshape as [[-> Hfmt] | (Hnz & Hfmt & Hother)]; rewrite Hfmt.
  - rewrite app_assoc, last_snoc. split; [now exists c|].
    intros Hin. exfalso.
    apply in_app_or in Hin. destruct Hin as [Hin | [-> | []]]; [| discriminate Hc].
    apply in_app_or in Hin. destruct Hin as [Hin | Hin]; [now apply Hsign|].
    now apply (Hnodot front).
  - replace (sign ++ other ++ "."%char :: front ++ [c])
      with ((sign ++ other ++ "."%char :: front) ++ [c])
      by (rewrite <- !app_assoc; reflexivity).
    rewrite last_snoc. split; [now exists c|]. intros _ Heq. now inversion Heq.
Qed.

Lemma formatUnits_ends_with_a_significant_digit_witness :
  let printed := list_ascii_of_string (formatUnits "1200" (JInt 3)) in
  (exists c, last printed = Some c /\ is_digit_char c = true)
  /\ (In "."%char printed -> last printed <> Some "0"%char).
Proof. apply (formatUnits_ends_with_a_significant_digit "1200" 3). lia. Defined.

(** X29.  Zeros in front of a value are not removed: once the value has
    more digits than places, a zero put in front of it comes out in front
    of the result. *)
Theorem formatUnits_keeps_leading_zeros (value : string) (d : Z) :
  0 < d ->
  starts_with_minus value = false ->
  (Z.to_nat d < length (digits_of value))%nat ->
  formatUnits ("0" +:+ value) (JInt d) = "0" +:+ formatUnits value (JInt d).
Proof.
  intros Hd Hsign Hlen.
  rewrite !formatUnits_unfold by assumption. rewrite Hsign.
  change (digits_of ("0" +:+ value)) with ("0"%char :: digits_of value).
  change (starts_with_minus ("0" +:+ value)) with false.
  destruct (digits_of value) as [|c l] eqn:Hdigits; [cbn in Hlen; lia|].
  rewrite <- Hdigits in *. cbn [app].
  change ("0" +:+ string_of_list_ascii (formatted_of (Z.to_nat d) (digits_of value)))
    with (string_of_list_ascii ("0"%char :: formatted_of (Z.to_nat d) (digits_of value))).
  f_equal. unfold formatted_of.
  cbn [length].
  replace (Z.to_nat d + 1 - S (length (digits_of value)))%nat with 0%nat by lia.
  replace (Z.to_nat d + 1 - length (digits_of value))%nat with 0%nat by lia.
  cbn [replicate app length].
  replace (S (length (digits_of value)) - Z.to_nat d)%nat
    with (S (length (digits_of value) - Z.to_nat d)) by lia.
  cbn [take drop].
  destruct (0 <? length (strip_trailing_zeros
                           (drop (length (digits_of value) - Z.to_nat d) (digits_of value))))%nat;
    reflexivity.
Qed.

Lemma formatUnits_keeps_leading_zeros_witness :
  formatUnits ("0" +:+ "0750") (JInt 2) = "0" +:+ formatUnits "0750" (JInt 2).
Proof.
  apply (formatUnits_keeps_leading_zeros "0750" 2); [lia | reflexivity | vm_compute; lia].
Defined.
